(** * nestjs-k6: the in-memory users service and the k6 load script

    A shallow embedding of [UsersService] (apps/api, users.service.ts) and of
    the k6 script (apps/k6/load-test.js), with the properties of the
    repository's specification proved about them.

    Conventions of the embedding.
    - The numbers that the sources compute with are record ids, array
      indices, status codes and clock readings: integers, on which the
      operations used (increment, comparison) are exact in JavaScript as
      long as the values stay in the safe-integer range.  They are
      modelled by [Z].
    - A JavaScript object is a finite map from property names to values
      ([gmap string value]); objects live in a heap and the [users] array
      holds references, so that [findOne] returns the very object stored in
      the array and [Object.assign] mutates it in place.
    - A method is a computation in a state-and-exception monad.  A [throw]
      keeps the state reached so far: nothing is rolled back. *)

From stdpp Require Import gmap strings list fin_maps pretty sorting.

#[local] Set Warnings "-register-all".

(** ** JavaScript values and the built-ins the sources use *)

Module JS.

Inductive value : Type :=
| VUndefined
| VNull
| VBool (b : bool)
| VNum (n : Z)
| VStr (s : string)
| VArr (items : list value)
| VObj (props : list (string * value)).

(** A heap-allocated object: own enumerable properties. *)
Abbreviation obj := (gmap string value).

(** [ToBoolean], as applied by [if (...)], [!] and [&&]. *)
Definition truthy (v : value) : bool :=
  match v with
  | VUndefined | VNull => false
  | VBool b => b
  | VNum n => negb (n =? 0)%Z
  | VStr s => negb (String.eqb s "")
  | VArr _ | VObj _ => true
  end.

(** Property read [o.k]: a missing property reads as [undefined]. *)
Definition get (o : obj) (k : string) : value := default VUndefined (o !! k).

(** [v === n] for a number [n]. *)
Definition strict_eq_num (v : value) (n : Z) : bool :=
  match v with
  | VNum m => (m =? n)%Z
  | _ => false
  end.

(** [{ ...target, ...source }], which is also the content [target] has
    after [Object.assign(target, source)]: every property of [source]
    is written, the other properties of [target] stay. *)
Definition assign (target source : obj) : obj := source ∪ target.

(** [Array.prototype.find]: the first element satisfying [p]; [None]
    stands for [undefined]. *)
Fixpoint find {A : Type} (p : A → bool) (l : list A) : option A :=
  match l with
  | [] => None
  | x :: l' => if p x then Some x else find p l'
  end.

(** [Array.prototype.findIndex]: the index of the first element
    satisfying [p], scanning from index [k]; [-1] when there is none. *)
Fixpoint findIndex_from {A : Type} (p : A → bool) (k : Z) (l : list A) : Z :=
  match l with
  | [] => (-1)%Z
  | x :: l' => if p x then k else findIndex_from p (k + 1)%Z l'
  end.

Definition findIndex {A : Type} (p : A → bool) (l : list A) : Z :=
  findIndex_from p 0%Z l.

(** [Array.prototype.splice(start, deleteCount)] without inserted items:
    a negative [start] counts from the end, and both arguments are
    clamped to the array. *)
Definition splice {A : Type} (l : list A) (start deleteCount : Z) : list A :=
  let len := Z.of_nat (length l) in
  let s := if (start <? 0)%Z then Z.max (len + start) 0 else Z.min start len in
  let d := Z.min (Z.max deleteCount 0) (len - s) in
  take (Z.to_nat s) l ++ drop (Z.to_nat (s + d)) l.

End JS.

(** ** The users service *)

Module UsersService.
Import JS.

Abbreviation loc := positive.

(** The fields of the service instance, and the heap of the objects
    its array refers to. *)
Record state : Type := mkState {
  nextId : Z;
  users : list loc;
  heap : gmap loc obj
}.

Inductive exn : Type :=
| NotFoundException (message : string).

Inductive result (A : Type) : Type :=
| Ok (a : A)
| Throw (e : exn).
Arguments Ok {A} a.
Arguments Throw {A} e.

Definition M (A : Type) : Type := state → result A * state.

Definition ret {A : Type} (a : A) : M A := fun s => (Ok a, s).

Definition bind {A B : Type} (m : M A) (k : A → M B) : M B :=
  fun s =>
    match m s with
    | (Ok a, s') => k a s'
    | (Throw e, s') => (Throw e, s')
    end.

Definition throw {A : Type} (e : exn) : M A := fun s => (Throw e, s).

Notation "'do' x <- m 'in' k" := (bind m (fun x => k))
  (at level 10, x name, m at level 100, k at level 200).
Notation "m ';;;' k" := (bind m (fun _ => k))
  (at level 100, k at level 200, right associativity).

(** *** Primitive effects on the instance *)

(** Field initialisers. *)
Definition set_nextId (n : Z) : M unit :=
  fun s => (Ok tt, mkState n (users s) (heap s)).

Definition set_users (l : list loc) : M unit :=
  fun s => (Ok tt, mkState (nextId s) l (heap s)).

(** [this.nextId++]: yields the old value. *)
Definition post_incr_nextId : M Z :=
  fun s => (Ok (nextId s), mkState (nextId s + 1) (users s) (heap s)).

(** An object literal: a fresh object on the heap. *)
Definition new_object (o : obj) : M loc :=
  fun s =>
    let l := fresh (dom (heap s)) in
    (Ok l, mkState (nextId s) (users s) (<[l := o]> (heap s))).

(** [this.users.push(user)]. *)
Definition push (user : loc) : M unit :=
  fun s => (Ok tt, mkState (nextId s) (users s ++ [user]) (heap s)).

(** [Object.assign(user, dto)]: in place, on the object [user] refers to. *)
Definition Object_assign (user : loc) (dto : obj) : M unit :=
  fun s =>
    (Ok tt, mkState (nextId s) (users s) (alter (fun u => assign u dto) user (heap s))).

(** The callback [(u) => u.id === id], on a reference of the array. *)
Definition has_id (h : gmap loc obj) (id : Z) (u : loc) : bool :=
  match h !! u with
  | Some o => strict_eq_num (get o "id") id
  | None => false
  end.

Definition not_found_message (id : Z) : string :=
  "User #" +:+ pretty id +:+ " not found".

(** *** The methods *)

(** [private nextId = 4; private users = [ {...}, {...}, {...} ]]. *)
Definition constructor : M unit :=
  set_nextId 4 ;;;
  do alice <- new_object {[ "id" := VNum 1; "name" := VStr "Alice Johnson";
                            "email" := VStr "alice@example.com" ]} in
  do bob <- new_object {[ "id" := VNum 2; "name" := VStr "Bob Smith";
                          "email" := VStr "bob@example.com" ]} in
  do charlie <- new_object {[ "id" := VNum 3; "name" := VStr "Charlie Brown";
                              "email" := VStr "charlie@example.com" ]} in
  set_users [alice; bob; charlie].

(** The instance right after construction: the seeded state. *)
Definition init : state := snd (constructor (mkState 0 [] ∅)).

Definition findAll : M (list loc) :=
  fun s => (Ok (users s), s).

Definition findOne (id : Z) : M loc :=
  fun s =>
    match find (has_id (heap s) id) (users s) with
    | None => throw (NotFoundException (not_found_message id)) s
    | Some user => ret user s
    end.

Definition create (dto : obj) : M loc :=
  do id <- post_incr_nextId in
  do user <- new_object (assign {[ "id" := VNum id ]} dto) in
  push user ;;;
  ret user.

Definition update (id : Z) (dto : obj) : M loc :=
  do user <- findOne id in
  Object_assign user dto ;;;
  ret user.

Definition remove (id : Z) : M unit :=
  fun s =>
    let index := findIndex (has_id (heap s) id) (users s) in
    if (index =? -1)%Z
    then throw (NotFoundException (not_found_message id)) s
    else (Ok tt, mkState (nextId s) (splice (users s) index 1) (heap s)).

(** *** What the methods are called with

    The methods above take the DTO as the object it is at run time.  The
    two records below are the values of the declared parameter types,
    with the objects they stand for. *)

Module CreateUserDto.
(** Modelled from the spec: the class [CreateUserDto] of
    [./dto/create-user.dto], which the service imports, is not among the
    sources; the interface table gives the body of a create as
    [{name, email}], both texts. *)
Record t : Type := mk { name : string; email : string }.

Definition to_obj (dto : t) : obj :=
  {[ "name" := VStr (name dto); "email" := VStr (email dto) ]}.
End CreateUserDto.

Module UpdateUserDto.
(** Modelled from the spec: the class [UpdateUserDto] of
    [./dto/update-user.dto], which the service imports, is not among the
    sources; the interface table gives the body of an update as a partial
    set of the fields of a create. *)
Record t : Type := mk { name : option string; email : option string }.

(** A field that is not given is not a property of the object. *)
Definition field (k : string) (v : option string) : obj :=
  match v with
  | Some s => {[ k := VStr s ]}
  | None => ∅
  end.

Definition to_obj (dto : t) : obj :=
  field "name" (name dto) ∪ field "email" (email dto).
End UpdateUserDto.

(** The calls a client of the service can make, one per method. *)
Inductive call : Type :=
| CallFindAll
| CallFindOne (id : Z)
| CallCreate (dto : CreateUserDto.t)
| CallUpdate (id : Z) (dto : UpdateUserDto.t)
| CallRemove (id : Z).

Inductive reply : Type :=
| Users (l : list loc)
| User (u : loc)
| Void.

Definition exec (c : call) : M reply :=
  match c with
  | CallFindAll => do l <- findAll in ret (Users l)
  | CallFindOne id => do u <- findOne id in ret (User u)
  | CallCreate dto => do u <- create (CreateUserDto.to_obj dto) in ret (User u)
  | CallUpdate id dto => do u <- update id (UpdateUserDto.to_obj dto) in ret (User u)
  | CallRemove id => remove id ;;; ret Void
  end.

(** The state after a sequence of calls; a call that throws does not
    stop the service. *)
Fixpoint run (cs : list call) (s : state) : state :=
  match cs with
  | [] => s
  | c :: cs' => run cs' (snd (exec c s))
  end.

(** The states the service can be in. *)
Definition reachable (s : state) : Prop := ∃ cs, s = run cs init.

(** *** Observations used in the statements *)

(** The [id] a record carries, when it is a number. *)
Definition id_of (o : obj) : option Z :=
  match get o "id" with
  | VNum n => Some n
  | _ => None
  end.

Definition user_id (s : state) (u : loc) : option Z :=
  heap s !! u ≫= id_of.

(** The ids of the collection, in the order of the array. *)
Definition ids (s : state) : list (option Z) := user_id s <$> users s.

(** Some record of the collection has id [id]. *)
Definition present (s : state) (id : Z) : bool :=
  existsb (has_id (heap s) id) (users s).

(** The ids that the [create] calls of a sequence hand out, each read
    from the record that the call returned. *)
Fixpoint created_ids (cs : list call) (s : state) : list (option Z) :=
  match cs with
  | [] => []
  | c :: cs' =>
      let (r, s') := exec c s in
      match c, r with
      | CallCreate _, Ok (User u) => [user_id s' u]
      | _, _ => []
      end ++ created_ids cs' s'
  end.

(** The invariant of the collection: the counter is positive, and the
    ids are positive integers below the counter that strictly increase
    along the array (so they are pairwise distinct, and the array is in
    the order in which the ids were handed out). *)
Definition Inv (s : state) : Prop :=
  (0 < nextId s)%Z ∧
  ∃ zs : list Z,
    ids s = Some <$> zs ∧
    StronglySorted Z.lt zs ∧
    Forall (λ z, (0 < z < nextId s)%Z) zs.

End UsersService.

(** ** The k6 load script *)

Module LoadTest.
Import JS.

(** *** What the script exchanges with k6 *)

Inductive method : Type := GET | POST | PUT | DELETE.

(** The [params] argument of a request: the script sets headers and
    tags only. *)
Record params : Type := mkParams {
  headers : gmap string string;
  tags : gmap string string
}.

(** A request as the script hands it to [http.get], [http.post],
    [http.put] or [http.del].  The body is the document that
    [JSON.stringify] is applied to. *)
Record request : Type := mkRequest {
  meth : method;
  url : string;
  body : option value;
  req_params : option params
}.

(** The body of a response: none at all ([r.body] is [null], as when the
    request failed), or a text, with the document it is the JSON text of
    when it is valid JSON. *)
Inductive payload : Type :=
| NoBody
| Body (document : option value).

(** What the script reads of a response: [r.status], the body, and
    [r.timings.duration], whose unit and precision play no role here. *)
Record response : Type := mkResponse {
  status : Z;
  res_body : payload;
  duration : Z
}.

(** The document that the body of a response is the JSON text of. *)
Definition json_body (res : response) : option value :=
  match res_body res with
  | NoBody => None
  | Body document => document
  end.

Inductive exn : Type :=
| JsonParseError
| TypeError.

(** What a run leaves behind, in order. *)
Inductive entry : Type :=
| Requested (req : request) (res : response)
| Slept (seconds : Z)
| Checked (name : string) (pass : bool)
| Sampled (metric : string) (sample : Z)
| Logged (message : string).

(** A script is a tree of calls into k6 and the JavaScript runtime. *)
Inductive prog (A : Type) : Type :=
| Ret (a : A)
| Raise (e : exn)
| Http (req : request) (k : response → prog A)
| Now (k : Z → prog A)
| Emit (e : entry) (k : prog A).
Arguments Ret {A} a.
Arguments Raise {A} e.
Arguments Http {A} req k.
Arguments Now {A} k.
Arguments Emit {A} e k.

Fixpoint bind {A B : Type} (p : prog A) (f : A → prog B) : prog B :=
  match p with
  | Ret a => f a
  | Raise e => Raise e
  | Http req k => Http req (fun res => bind (k res) f)
  | Now k => Now (fun t => bind (k t) f)
  | Emit e k => Emit e (bind k f)
  end.

Notation "'do' x <- m 'in' k" := (bind m (fun x => k))
  (at level 10, x name, m at level 100, k at level 200).
Notation "m ';;;' k" := (bind m (fun _ => k))
  (at level 100, k at level 200, right associativity).

(** [try { p } catch (e) { h e }]. *)
Fixpoint catch {A : Type} (p : prog A) (h : exn → prog A) : prog A :=
  match p with
  | Ret a => Ret a
  | Raise e => h e
  | Http req k => Http req (fun res => catch (k res) h)
  | Now k => Now (fun t => catch (k t) h)
  | Emit e k => Emit e (catch k h)
  end.

(** *** The k6 and JavaScript calls the script makes *)

Definition http_get (u : string) (p : option params) : prog response :=
  Http (mkRequest GET u None p) Ret.

Definition http_post (u : string) (b : value) (p : option params) : prog response :=
  Http (mkRequest POST u (Some b) p) Ret.

Definition http_put (u : string) (b : value) (p : option params) : prog response :=
  Http (mkRequest PUT u (Some b) p) Ret.

Definition http_del (u : string) (p : option params) : prog response :=
  Http (mkRequest DELETE u None p) Ret.

Definition sleep (seconds : Z) : prog unit := Emit (Slept seconds) (Ret tt).

Definition Date_now : prog Z := Now Ret.

Definition console_log (message : string) : prog unit :=
  Emit (Logged message) (Ret tt).

(** [metric.add(sample)] of a [Trend] or a [Rate]. *)
Definition metric_add (metric : string) (sample : Z) : prog unit :=
  Emit (Sampled metric sample) (Ret tt).

(** [group(name, fn)] runs [fn]. *)
Definition group {A : Type} (name : string) (fn : prog A) : prog A := fn.

(** Property read on a parsed document. *)
Fixpoint lookup_prop (props : list (string * value)) (k : string) : value :=
  match props with
  | [] => VUndefined
  | (k', v) :: props' => if String.eqb k' k then v else lookup_prop props' k
  end.

Definition prop (v : value) (k : string) : value :=
  match v with
  | VObj props => lookup_prop props k
  | _ => VUndefined
  end.

(** [v.k] in the script: reading a property of [null] or [undefined]
    throws. *)
Definition member (v : value) (k : string) : prog value :=
  match v with
  | VUndefined | VNull => Raise TypeError
  | _ => Ret (prop v k)
  end.

(** [r.json()]: the document of the body; it throws when there is no
    body and when the body is not valid JSON. *)
Definition json (r : response) : prog value :=
  match json_body r with
  | Some v => Ret v
  | None => Raise JsonParseError
  end.

(** [r.json(selector)]: the selected part of the document.  It throws
    when there is no body; for a body that is not valid JSON, and for a
    document without the selected part, it yields [undefined]. *)
Definition json_at (r : response) (selector : string) : prog value :=
  match res_body r with
  | NoBody => Raise JsonParseError
  | Body None => Ret VUndefined
  | Body (Some v) => Ret (prop v selector)
  end.

Definition isArray (v : value) : bool :=
  match v with
  | VArr _ => true
  | _ => false
  end.

Definition is_undefined (v : value) : bool :=
  match v with
  | VUndefined => true
  | _ => false
  end.

(** [ToString], as template literals apply it. *)
Fixpoint to_string (v : value) : string :=
  match v with
  | VUndefined => "undefined"
  | VNull => "null"
  | VBool true => "true"
  | VBool false => "false"
  | VNum n => pretty n
  | VStr s => s
  | VArr items =>
      String.concat ","
        (List.map (fun x => match x with
                            | VUndefined | VNull => ""
                            | _ => to_string x
                            end) items)
  | VObj _ => "[object Object]"
  end.

(** [check(res, { name: predicate, ... })]: every predicate is evaluated
    and tallied in turn, and the call yields whether all passed.  A
    predicate that throws is tallied as failed and the exception goes
    on to the caller. *)
Fixpoint check (res : response) (checks : list (string * (response → prog bool)))
  : prog bool :=
  match checks with
  | [] => Ret true
  | (name, predicate) :: checks' =>
      do pass <- catch (predicate res)
                   (fun e => Emit (Checked name false) (Raise e)) in
      Emit (Checked name pass)
        (do rest <- check res checks' in Ret (pass && rest))
  end.

(** *** The script *)

Section script.
(** [__ENV.BASE_URL], when the variable is set. *)
Variable ENV_BASE_URL : option string.

Definition taggedParams (name : string) (extra : params) : params :=
  mkParams (headers extra) (<["name" := name]> (tags extra)).

(** The default [extra = {}]. *)
Definition no_extra : params := mkParams ∅ ∅.

Definition BASE_URL : string :=
  match ENV_BASE_URL with
  | Some u => if String.eqb u "" then "http://localhost:3001" else u
  | None => "http://localhost:3001"
  end.

(** The value [setup] returns, which k6 hands to the default function
    and to [teardown]. *)
Record data : Type := mkData { setupUserId : value }.

Definition setup : prog data :=
  do res <- http_get (BASE_URL +:+ "/users") None in
  check res [("setup: API is reachable",
              fun r => Ret (status r =? 200)%Z)] ;;;
  let payload := VObj [("name", VStr "Setup User");
                       ("email", VStr "setup@example.com")] in
  let params := mkParams {[ "Content-Type" := "application/json" ]} ∅ in
  do createRes <- http_post (BASE_URL +:+ "/users") payload (Some params) in
  do setupUser <- json createRes in
  do id <- member setupUser "id" in
  console_log ("Setup: created user #" +:+ to_string id +:+ " for write tests") ;;;
  do id <- member setupUser "id" in
  Ret (mkData id).

Definition read_operations : prog unit :=
  do listRes <- http_get (BASE_URL +:+ "/users")
                  (Some (taggedParams "GET /users" no_extra)) in
  check listRes
    [("GET /users returns 200", fun r => Ret (status r =? 200)%Z);
     ("GET /users returns array",
      fun r => do v <- json r in Ret (isArray v))] ;;;
  metric_add "user_list_duration" (duration listRes) ;;;
  do getRes <- http_get (BASE_URL +:+ "/users/1")
                 (Some (taggedParams "GET /users/:id" no_extra)) in
  check getRes
    [("GET /users/1 returns 200", fun r => Ret (status r =? 200)%Z);
     ("GET /users/1 has correct id",
      fun r => do v <- json_at r "id" in Ret (strict_eq_num v 1))] ;;;
  Ret tt.

Definition write_operations (d : data) (params : params) : prog unit :=
  do t1 <- Date_now in
  do t2 <- Date_now in
  let createPayload :=
    VObj [("name", VStr ("User " +:+ pretty t1));
          ("email", VStr ("user-" +:+ pretty t2 +:+ "@test.com"))] in
  do createRes <- http_post (BASE_URL +:+ "/users") createPayload
                    (Some (taggedParams "POST /users" params)) in
  do created <- check createRes
    [("POST /users returns 201", fun r => Ret (status r =? 201)%Z);
     ("POST /users returns id",
      fun r => do v <- json_at r "id" in Ret (negb (is_undefined v)))] in
  metric_add "user_creation_success" (if created then 1 else 0) ;;;
  (if truthy (setupUserId d) then
     do t3 <- Date_now in
     let updatePayload := VObj [("name", VStr ("Updated " +:+ pretty t3))] in
     do updateRes <- http_put (BASE_URL +:+ "/users/" +:+ to_string (setupUserId d))
                       updatePayload
                       (Some (taggedParams "PUT /users/:id" params)) in
     check updateRes
       [("PUT /users/:id returns 200", fun r => Ret (status r =? 200)%Z)] ;;;
     Ret tt
   else Ret tt) ;;;
  do guard <- (if created
               then do v <- json_at createRes "id" in Ret (truthy v)
               else Ret false) in
  if guard then
    do newId <- json_at createRes "id" in
    do deleteRes <- http_del (BASE_URL +:+ "/users/" +:+ to_string newId)
                      (Some (taggedParams "DELETE /users/:id" no_extra)) in
    check deleteRes
      [("DELETE /users/:id returns 200", fun r => Ret (status r =? 200)%Z)] ;;;
    Ret tt
  else Ret tt.

(** [export default function (data)]. *)
Definition default (d : data) : prog unit :=
  let params := mkParams {[ "Content-Type" := "application/json" ]} ∅ in
  group "Read Operations" read_operations ;;;
  group "Write Operations" (write_operations d params) ;;;
  sleep 1.

Definition teardown (d : data) : prog unit :=
  if truthy (setupUserId d) then
    http_del (BASE_URL +:+ "/users/" +:+ to_string (setupUserId d)) None ;;;
    console_log ("Teardown: deleted setup user #" +:+ to_string (setupUserId d))
  else Ret tt.

End script.

(** *** Running a script against a server *)

(** The outcome of a run: the value returned or the exception thrown. *)
Inductive outcome (A : Type) : Type :=
| Done (a : A)
| Aborted (e : exn).
Arguments Done {A} a.
Arguments Aborted {A} e.

Section run.
(** The world the script runs in: a server that answers requests and
    a clock. *)
Context {W : Type}.
Variable respond : W → request → response * W.
Variable clock : W → Z * W.

Fixpoint run {A : Type} (p : prog A) (w : W) : outcome A * list entry * W :=
  match p with
  | Ret a => (Done a, [], w)
  | Raise e => (Aborted e, [], w)
  | Http req k =>
      let (res, w1) := respond w req in
      let '(o, log, w2) := run (k res) w1 in
      (o, Requested req res :: log, w2)
  | Now k =>
      let (t, w1) := clock w in run (k t) w1
  | Emit e k =>
      let '(o, log, w1) := run k w in
      (o, e :: log, w1)
  end.
End run.

(** What a run issued: its requests, by method and URL, and its sleeps. *)
Inductive action : Type :=
| Issue (m : method) (u : string)
| Think (seconds : Z).

Definition issued_by (e : entry) : option action :=
  match e with
  | Requested req _ => Some (Issue (meth req) (url req))
  | Slept seconds => Some (Think seconds)
  | _ => None
  end.

Definition issued (log : list entry) : list action := omap issued_by log.

(** The responses a run received, in order. *)
Definition received_by (e : entry) : option response :=
  match e with
  | Requested _ res => Some res
  | _ => None
  end.

Definition received (log : list entry) : list response := omap received_by log.

(** *** What the statements about the script refer to *)

(** The [id] of the document in a response; [undefined] when there is
    none. *)
Definition returned_id (res : response) : value :=
  from_option (fun v => prop v "id") VUndefined (json_body res).


Section expected.
Variable ENV_BASE_URL : option string.

Definition users_url : string := BASE_URL ENV_BASE_URL +:+ "/users".

Definition user_url (id : value) : string :=
  BASE_URL ENV_BASE_URL +:+ "/users/" +:+ to_string id.

(** What [setup] issues. *)
Definition setup_actions : list action :=
  [Issue GET users_url; Issue POST users_url].

(** What one iteration issues, given the value [setup] returned and
    the response to the create of the iteration. *)
Definition iteration_actions (d : data) (createRes : response) : list action :=
  [Issue GET users_url; Issue GET (BASE_URL ENV_BASE_URL +:+ "/users/1");
   Issue POST users_url]
  ++ (if truthy (setupUserId d)
      then [Issue PUT (user_url (setupUserId d))] else [])
  ++ (if (status createRes =? 201)%Z && truthy (returned_id createRes)
      then [Issue DELETE (user_url (returned_id createRes))] else [])
  ++ [Think 1].

(** What [teardown] issues. *)
Definition teardown_actions (d : data) : list action :=
  if truthy (setupUserId d) then [Issue DELETE (user_url (setupUserId d))] else [].


(** The log of one iteration of the default function. *)
Definition is_iteration_log (d : data) (log : list entry) : Prop :=
  ∃ listRes getRes createRes others,
    received log = listRes :: getRes :: createRes :: others ∧
    issued log = iteration_actions d createRes.

End expected.

(** The script reads the body of the responses to its GET and POST
    requests only. *)
Definition reads_body (m : method) : bool :=
  match m with
  | GET | POST => true
  | PUT | DELETE => false
  end.

Definition is_document (v : value) : bool :=
  match v with
  | VArr _ | VObj _ => true
  | _ => false
  end.

(** What an iteration needs of its first three responses, in their
    order, to go on: a JSON document in the response to the list request,
    on which it calls [r.json()], and a body in the responses to the get
    and to the create, on which it calls [r.json('id')]. *)
Definition readable (n : nat) (res : response) : Prop :=
  match n with
  | O => is_Some (json_body res)
  | _ => res_body res ≠ NoBody
  end.

(** The first three requests of an iteration. *)
Definition first_actions (ENV_BASE_URL : option string) : list action :=
  [Issue GET (users_url ENV_BASE_URL);
   Issue GET (BASE_URL ENV_BASE_URL +:+ "/users/1");
   Issue POST (users_url ENV_BASE_URL)].


Definition silent_clock (w : unit) : Z * unit := (0%Z, w).

(** A server that answers every GET and POST with a JSON array or
    object. *)
Definition answers_json {W : Type} (respond : W → request → response * W) : Prop :=
  ∀ w req, reads_body (meth req) = true →
    ∃ v, json_body (fst (respond w req)) = Some v ∧ is_document v = true.

(** A small server to run the script against: it numbers the records it
    creates from its state on, and answers a removal with an empty
    body. *)
Definition sample_respond (n : Z) (req : request) : response * Z :=
  match meth req with
  | GET => (mkResponse 200 (Body (Some (VArr [VObj [("id", VNum 1)]]))) 3, n)
  | POST => (mkResponse 201 (Body (Some (VObj [("id", VNum n)]))) 5, (n + 1)%Z)
  | PUT => (mkResponse 200 (Body (Some (VObj [("id", VNum 4)]))) 4, n)
  | DELETE => (mkResponse 200 (Body None) 2, n)
  end.

Definition sample_clock (n : Z) : Z * Z := (1700000000000%Z, n).

End LoadTest.

(** ** The options of the load script *)

Module LoadTestOptions.

Record stage : Type := mkStage { duration : string; target : Z }.

(** [export const options]: the stages, and the thresholds by the name
    of the metric they bound. *)
Record options_t : Type := mkOptions {
  stages : list stage;
  thresholds : gmap string (list string)
}.

Definition options : options_t :=
  mkOptions
    [mkStage "10s" 10; mkStage "20s" 10; mkStage "10s" 0]
    (list_to_map
       [("http_req_duration", ["p(95)<500"]);
        ("http_req_failed", ["rate<0.05"]);
        ("checks", ["rate>0.95"]);
        ("http_req_duration{name:GET /users}", ["p(95)<300"]);
        ("http_req_duration{name:GET /users/:id}", ["p(95)<200"]);
        ("http_req_duration{name:POST /users}", ["p(95)<500"]);
        ("http_req_duration{name:PUT /users/:id}", ["p(95)<400"]);
        ("http_req_duration{name:DELETE /users/:id}", ["p(95)<300"]);
        ("user_list_duration", ["p(95)<400"]);
        ("user_creation_success", ["rate>0.90"])]).

(** The key under which [options.thresholds] bounds the duration of the
    requests tagged with [name]. *)
Definition duration_threshold_key (name : string) : string :=
  "http_req_duration{name:" +:+ name +:+ "}".

End LoadTestOptions.

(** ** Observations on calls and logs *)

Module CallObserve.
Import UsersService.

Definition is_create (c : call) : bool :=
  match c with
  | CallCreate _ => true
  | _ => false
  end.

(** How many [create] calls a sequence has. *)
Definition creates (cs : list call) : nat := length (List.filter is_create cs).

(** An array without its first element that satisfies [p]. *)
Fixpoint without_first {A : Type} (p : A → bool) (l : list A) : list A :=
  match l with
  | [] => []
  | x :: l' => if p x then l' else x :: without_first p l'
  end.

(** A state reached by a create, an update and a removal. *)
Definition sample_state : state :=
  run [CallCreate (CreateUserDto.mk "X" "x@y.com");
       CallUpdate 1 (UpdateUserDto.mk (Some "A") None);
       CallRemove 2] init.

End CallObserve.

Module LogObserve.
Import JS LoadTest.

(** The requests of a log, in order. *)
Definition request_of (e : entry) : option request :=
  match e with
  | Requested req _ => Some req
  | _ => None
  end.

Definition requests (log : list entry) : list request := omap request_of log.

(** The [name] tag and the [Content-Type] header of a request. *)
Definition tag_name (req : request) : option string :=
  req_params req ≫= λ p, tags p !! "name".

Definition content_type (req : request) : option string :=
  req_params req ≫= λ p, headers p !! "Content-Type".

(** The method as the tags and the threshold keys of the script spell
    it. *)
Definition method_name (m : method) : string :=
  match m with
  | GET => "GET"
  | POST => "POST"
  | PUT => "PUT"
  | DELETE => "DELETE"
  end.

(** The log of a run, without its outcome and final world. *)
Definition log_of {A W : Type} (r : outcome A * list entry * W) : list entry :=
  snd (fst r).

(** The samples that a log adds to the custom metrics, in order. *)
Definition sample_of (e : entry) : option (string * Z) :=
  match e with
  | Sampled metric sample => Some (metric, sample)
  | _ => None
  end.

Definition samples (log : list entry) : list (string * Z) := omap sample_of log.

End LogObserve.

(** ** Facts about the array built-ins *)

Module JSFacts.
Import JS.

Section first_match.
Context {A : Type} (p : A → bool).

(** An array either has no element satisfying [p], or splits at its
    first such element. *)
Lemma scan_total (l : list A) :
  Forall (λ y, p y = false) l ∨
  ∃ l1 x l2, l = l1 ++ x :: l2 ∧ Forall (λ y, p y = false) l1 ∧ p x = true.
Proof.
  induction l as [|a l IH].
  - by left.
  - destruct (p a) eqn:Ha.
    + right. by exists [], a, l.
    + destruct IH as [Hn | (l1 & x & l2 & -> & Hl1 & Hx)].
      * left. by constructor.
      * right. exists (a :: l1), x, l2. split; [done|]. split; [by constructor | done].
Qed.

Lemma find_first l1 x l2 :
  Forall (λ y, p y = false) l1 → p x = true → find p (l1 ++ x :: l2) = Some x.
Proof.
  induction 1 as [|y l1 Hy _ IH]; intros Hx; simpl.
  - by rewrite Hx.
  - rewrite Hy. by apply IH.
Qed.

Lemma find_none l : Forall (λ y, p y = false) l → find p l = None.
Proof. induction 1 as [|y l Hy _ IH]; simpl; [done | by rewrite Hy]. Qed.

Lemma findIndex_from_first k l1 x l2 :
  Forall (λ y, p y = false) l1 → p x = true →
  findIndex_from p k (l1 ++ x :: l2) = (k + Z.of_nat (length l1))%Z.
Proof.
  intros Hl1 Hx. revert k.
  induction Hl1 as [|y l1 Hy _ IH]; intros k; simpl.
  - rewrite Hx. lia.
  - rewrite Hy, IH. lia.
Qed.

Lemma findIndex_from_none k l :
  Forall (λ y, p y = false) l → findIndex_from p k l = (-1)%Z.
Proof.
  intros Hl. revert k.
  induction Hl as [|y l Hy _ IH]; intros k; simpl; [done | by rewrite Hy].
Qed.

Lemma existsb_none l : Forall (λ y, p y = false) l → existsb p l = false.
Proof. induction 1 as [|y l Hy _ IH]; simpl; [done | by rewrite Hy]. Qed.

Lemma existsb_first l1 x l2 : p x = true → existsb p (l1 ++ x :: l2) = true.
Proof.
  intros Hx. rewrite existsb_app. simpl. rewrite Hx.
  by rewrite orb_true_r.
Qed.
End first_match.

(** Removing one element at an index inside the array. *)
Lemma splice_one {A : Type} (l1 : list A) x l2 :
  splice (l1 ++ x :: l2) (Z.of_nat (length l1)) 1 = l1 ++ l2.
Proof.
  unfold splice. rewrite length_app. cbn [length].
  assert ((Z.of_nat (length l1) <? 0)%Z = false) as -> by (apply Z.ltb_ge; lia).
  rewrite (Z.min_l (Z.of_nat (length l1))) by lia.
  rewrite Z.max_l by lia.
  rewrite Z.min_l by lia.
  rewrite Nat2Z.id.
  replace (Z.to_nat (Z.of_nat (length l1) + 1)) with (length l1 + 1)%nat by lia.
  rewrite take_app_length.
  rewrite <- drop_drop. rewrite drop_app_length. done.
Qed.

End JSFacts.

(** ** Facts about the methods of the service *)

Module UsersServiceFacts.
Import JS UsersService JSFacts.

Implicit Types (s : state) (id : Z) (u : loc) (dto : obj).

(** *** What each method computes *)

Lemma create_eq dto s :
  create dto s =
    (Ok (fresh (dom (heap s))),
     mkState (nextId s + 1) (users s ++ [fresh (dom (heap s))])
       (<[fresh (dom (heap s)) := assign {[ "id" := VNum (nextId s) ]} dto]> (heap s))).
Proof. reflexivity. Qed.

(** Either no record has the id, or the array splits at the first one
    that has. *)
Lemma lookup_total s id :
  Forall (λ u, has_id (heap s) id u = false) (users s) ∨
  ∃ l1 u l2,
    users s = l1 ++ u :: l2 ∧
    Forall (λ u', has_id (heap s) id u' = false) l1 ∧
    has_id (heap s) id u = true.
Proof. apply scan_total. Qed.

Lemma present_false s id :
  present s id = false ↔ Forall (λ u, has_id (heap s) id u = false) (users s).
Proof.
  unfold present. split.
  - intros H. apply Forall_forall. intros u Hu.
    destruct (has_id (heap s) id u) eqn:E; [|done].
    assert (existsb (has_id (heap s) id) (users s) = true) as Ht; [|congruence].
    apply existsb_exists. exists u. split; [by apply list_elem_of_In | done].
  - apply existsb_none.
Qed.

Lemma present_first s id l1 u l2 :
  users s = l1 ++ u :: l2 → has_id (heap s) id u = true → present s id = true.
Proof. unfold present. intros -> Hu. by apply existsb_first. Qed.

Lemma findOne_absent s id :
  Forall (λ u, has_id (heap s) id u = false) (users s) →
  findOne id s = (Throw (NotFoundException (not_found_message id)), s).
Proof. intros H. unfold findOne. by rewrite (find_none _ _ H). Qed.

Lemma findOne_first s id l1 u l2 :
  users s = l1 ++ u :: l2 →
  Forall (λ u', has_id (heap s) id u' = false) l1 →
  has_id (heap s) id u = true →
  findOne id s = (Ok u, s).
Proof.
  intros E Hl1 Hu. unfold findOne. rewrite E.
  by rewrite (find_first _ _ _ _ Hl1 Hu).
Qed.

Lemma update_absent s id dto :
  Forall (λ u, has_id (heap s) id u = false) (users s) →
  update id dto s = (Throw (NotFoundException (not_found_message id)), s).
Proof. intros H. unfold update, bind. by rewrite (findOne_absent _ _ H). Qed.

Lemma update_first s id dto l1 u l2 :
  users s = l1 ++ u :: l2 →
  Forall (λ u', has_id (heap s) id u' = false) l1 →
  has_id (heap s) id u = true →
  update id dto s =
    (Ok u, mkState (nextId s) (users s) (alter (λ o, assign o dto) u (heap s))).
Proof.
  intros E Hl1 Hu. unfold update, bind.
  by rewrite (findOne_first _ _ _ _ _ E Hl1 Hu).
Qed.

Lemma remove_absent s id :
  Forall (λ u, has_id (heap s) id u = false) (users s) →
  remove id s = (Throw (NotFoundException (not_found_message id)), s).
Proof.
  intros H. unfold remove, findIndex. by rewrite (findIndex_from_none _ _ _ H).
Qed.

Lemma remove_first s id l1 u l2 :
  users s = l1 ++ u :: l2 →
  Forall (λ u', has_id (heap s) id u' = false) l1 →
  has_id (heap s) id u = true →
  remove id s = (Ok tt, mkState (nextId s) (l1 ++ l2) (heap s)).
Proof.
  intros E Hl1 Hu. unfold remove, findIndex. rewrite E.
  rewrite (findIndex_from_first _ _ _ _ _ Hl1 Hu). rewrite Z.add_0_l.
  destruct (Z.eqb_spec (Z.of_nat (length l1)) (-1)) as [?|_]; [lia|].
  by rewrite splice_one.
Qed.

(** *** Reading ids *)

Lemma has_id_true s id u :
  has_id (heap s) id u = true ↔
  ∃ o, heap s !! u = Some o ∧ get o "id" = VNum id.
Proof.
  unfold has_id. split.
  - destruct (heap s !! u) as [o|]; [|done]. intros H. exists o. split; [done|].
    destruct (get o "id"); simpl in H; try done.
    apply Z.eqb_eq in H. by subst.
  - intros (o & -> & ->). simpl. apply Z.eqb_refl.
Qed.

Lemma has_id_user_id s id u :
  has_id (heap s) id u = true ↔ user_id s u = Some id.
Proof.
  rewrite has_id_true. unfold user_id, id_of. split.
  - intros (o & -> & E). simpl. by rewrite E.
  - destruct (heap s !! u) as [o|]; simpl; [|done].
    intros H. exists o. split; [done|].
    destruct (get o "id"); try done. by inversion H.
Qed.

Lemma user_id_allocated s u z :
  user_id s u = Some z → u ≠ fresh (dom (heap s)).
Proof.
  unfold user_id. intros H ->.
  destruct (heap s !! fresh (dom (heap s))) as [o|] eqn:E; [|done].
  apply (is_fresh (dom (heap s))). apply elem_of_dom. by exists o.
Qed.

End UsersServiceFacts.

(** ** The invariant of the collection *)

Module Invariant.
Import JS UsersService JSFacts UsersServiceFacts.

Implicit Types (s : state) (id : Z) (u : loc) (dto : obj).

(** The declared DTO types have no [id] property. *)
Lemma CreateUserDto_no_id (d : CreateUserDto.t) :
  CreateUserDto.to_obj d !! "id" = None.
Proof. reflexivity. Qed.

Lemma UpdateUserDto_no_id (d : UpdateUserDto.t) :
  UpdateUserDto.to_obj d !! "id" = None.
Proof. by destruct d as [[?|] [?|]]. Qed.

Lemma UpdateUserDto_name (d : UpdateUserDto.t) :
  UpdateUserDto.to_obj d !! "name" = VStr <$> UpdateUserDto.name d.
Proof. by destruct d as [[?|] [?|]]. Qed.

Lemma UpdateUserDto_email (d : UpdateUserDto.t) :
  UpdateUserDto.to_obj d !! "email" = VStr <$> UpdateUserDto.email d.
Proof. by destruct d as [[?|] [?|]]. Qed.

(** Reading a property after [Object.assign]. *)
Lemma get_assign (o : obj) dto (k : string) :
  get (assign o dto) k = from_option (λ v, v) (get o k) (dto !! k).
Proof.
  unfold get, assign. rewrite lookup_union.
  by destruct (dto !! k), (o !! k).
Qed.

(** The record [create] builds carries the value of the counter, unless
    the DTO brings an [id] of its own. *)
Lemma created_id dto (n : Z) :
  dto !! "id" = None → id_of (assign {[ "id" := VNum n ]} dto) = Some n.
Proof.
  intros H. unfold id_of, get, assign.
  rewrite lookup_union_r by done. by rewrite lookup_singleton_eq.
Qed.

(** [Object.assign] with a DTO without [id] leaves the [id] as it is. *)
Lemma assigned_id dto (o : obj) :
  dto !! "id" = None → id_of (assign o dto) = id_of o.
Proof.
  intros H. unfold id_of, get, assign. by rewrite lookup_union_r.
Qed.

Lemma user_id_ne s id u z :
  user_id s u = Some z → z ≠ id → has_id (heap s) id u = false.
Proof.
  intros Hz Hne. destruct (has_id (heap s) id u) eqn:E; [|done].
  apply has_id_user_id in E. congruence.
Qed.

Lemma ids_split s zs l1 u l2 :
  ids s = Some <$> zs → users s = l1 ++ u :: l2 →
  ∃ zs1 z zs2,
    zs = zs1 ++ z :: zs2 ∧
    user_id s <$> l1 = Some <$> zs1 ∧
    user_id s u = Some z ∧
    user_id s <$> l2 = Some <$> zs2.
Proof.
  unfold ids. intros Hids E. rewrite E, fmap_app, fmap_cons in Hids.
  symmetry in Hids.
  apply fmap_app_inv in Hids as (zs1 & zs' & E1 & E2 & ->).
  symmetry in E2. apply fmap_cons_inv in E2 as (z & zs2 & Ez & E2 & ->).
  exists zs1, z, zs2. by repeat split.
Qed.

Lemma ids_no_match s id l zs :
  user_id s <$> l = Some <$> zs → Forall (λ z, z ≠ id) zs →
  Forall (λ u, has_id (heap s) id u = false) l.
Proof.
  revert zs. induction l as [|u l IH]; intros [|z zs] E Hzs; try done.
  rewrite !fmap_cons in E. inversion E as [[Hu Hl]].
  inversion_clear Hzs as [|? ? Hz Hzs'].
  constructor; [by apply (user_id_ne _ _ _ z) | by apply (IH zs)].
Qed.

Lemma Inv_init : Inv init.
Proof.
  split; [done|]. exists [1; 2; 3]%Z. split; [reflexivity|].
  split; repeat constructor; lia.
Qed.

(** Records that carry an id keep their place in the heap when a new
    object is allocated. *)
Lemma ids_alloc s (zs : list Z) (o : obj) (l : list loc) :
  user_id s <$> l = Some <$> zs →
  (λ u, <[fresh (dom (heap s)) := o]> (heap s) !! u ≫= id_of) <$> l = Some <$> zs.
Proof.
  intros H. rewrite <- H. apply Forall_fmap_ext_1, Forall_forall. intros u Hu.
  assert (∃ z, user_id s u = Some z) as [z Hz].
  { apply (list_elem_of_fmap_2 (user_id s)) in Hu. rewrite H in Hu.
    apply list_elem_of_fmap in Hu as (z & -> & _). eauto. }
  rewrite lookup_insert_ne; [done|].
  intros <-. by apply user_id_allocated in Hz.
Qed.

Lemma Inv_create s dto :
  dto !! "id" = None → Inv s → Inv (snd (create dto s)).
Proof.
  intros Hdto (Hpos & zs & Hids & Hsorted & Hbound). rewrite create_eq.
  split; [simpl; lia|].
  exists (zs ++ [nextId s]). unfold ids, user_id. simpl.
  rewrite !fmap_app. simpl. split; [f_equal|split].
  - by apply ids_alloc.
  - rewrite lookup_insert_eq. simpl. by rewrite created_id.
  - apply StronglySorted_app_2; [|done|repeat constructor].
    intros z1 z2 H1 H2. apply list_elem_of_singleton in H2 as ->.
    rewrite Forall_forall in Hbound. apply Hbound in H1. lia.
  - apply Forall_app. split.
    + eapply Forall_impl; [exact Hbound|]. simpl. intros; lia.
    + repeat constructor; lia.
Qed.

Lemma user_id_assign s dto u u' :
  dto !! "id" = None →
  alter (λ o, assign o dto) u (heap s) !! u' ≫= id_of = user_id s u'.
Proof.
  intros Hdto. unfold user_id. destruct (decide (u = u')) as [->|Hne].
  - rewrite lookup_alter_eq. destruct (heap s !! u') as [o|]; simpl; [|done].
    by apply assigned_id.
  - by rewrite lookup_alter_ne.
Qed.

Lemma Inv_update s id dto :
  dto !! "id" = None → Inv s → Inv (snd (update id dto s)).
Proof.
  intros Hdto HI.
  destruct (lookup_total s id) as [Hn | (l1 & u & l2 & E & Hl1 & Hu)].
  - by rewrite update_absent.
  - rewrite (update_first _ _ _ _ _ _ E Hl1 Hu).
    destruct HI as (Hpos & zs & Hids & Hsorted & Hbound).
    split; [done|]. exists zs. split; [|done].
    rewrite <- Hids. unfold ids. simpl.
    apply Forall_fmap_ext_1, Forall_forall. intros u' _.
    by apply user_id_assign.
Qed.

Lemma sorted_remove (zs1 zs2 : list Z) z :
  StronglySorted Z.lt (zs1 ++ z :: zs2) → StronglySorted Z.lt (zs1 ++ zs2).
Proof.
  rewrite !StronglySorted_app, StronglySorted_cons.
  intros (H12 & H1 & _ & H2). split; [|done].
  intros x1 x2 Hx1 Hx2. apply H12; [done|]. by apply list_elem_of_further.
Qed.

Lemma Inv_remove s id : Inv s → Inv (snd (remove id s)).
Proof.
  intros HI.
  destruct (lookup_total s id) as [Hn | (l1 & u & l2 & E & Hl1 & Hu)].
  - by rewrite remove_absent.
  - rewrite (remove_first _ _ _ _ _ E Hl1 Hu).
    destruct HI as (Hpos & zs & Hids & Hsorted & Hbound).
    destruct (ids_split _ _ _ _ _ Hids E) as (zs1 & z & zs2 & -> & E1 & Ez & E2).
    split; [done|]. exists (zs1 ++ zs2). split; [|split].
    + unfold ids. simpl. rewrite !fmap_app. by f_equal.
    + by apply sorted_remove in Hsorted.
    + apply Forall_app in Hbound as [B1 B2]. apply Forall_cons in B2 as [_ B2].
      apply Forall_app. by split.
Qed.

Lemma Inv_exec s c : Inv s → Inv (snd (exec c s)).
Proof.
  intros HI. destruct c as [|id|d|id d|id]; unfold exec.
  - done.
  - unfold bind. destruct (lookup_total s id) as [Hn | (l1 & u & l2 & E & Hl1 & Hu)].
    + by rewrite (findOne_absent _ _ Hn).
    + by rewrite (findOne_first _ _ _ _ _ E Hl1 Hu).
  - pose proof (Inv_create s _ (CreateUserDto_no_id d) HI) as H.
    unfold bind. by destruct (create _ s) as [[?|?] ?].
  - pose proof (Inv_update s id _ (UpdateUserDto_no_id d) HI) as H.
    unfold bind. by destruct (update _ _ s) as [[?|?] ?].
  - pose proof (Inv_remove s id HI) as H.
    unfold bind. by destruct (remove _ s) as [[?|?] ?].
Qed.

Lemma Inv_run cs s : Inv s → Inv (run cs s).
Proof.
  revert s. induction cs as [|c cs IH]; intros s HI; simpl; [done|].
  by apply IH, Inv_exec.
Qed.

Lemma reachable_Inv s : reachable s → Inv s.
Proof. intros [cs ->]. apply Inv_run, Inv_init. Qed.

(** *** Consequences: an id names at most one record *)

Lemma Inv_unique s id l1 u l2 :
  Inv s → users s = l1 ++ u :: l2 → has_id (heap s) id u = true →
  Forall (λ u', has_id (heap s) id u' = false) (l1 ++ l2).
Proof.
  intros (_ & zs & Hids & Hsorted & _) E Hu.
  destruct (ids_split _ _ _ _ _ Hids E) as (zs1 & z & zs2 & -> & E1 & Ez & E2).
  apply has_id_user_id in Hu. rewrite Hu in Ez. inversion Ez; subst z.
  apply StronglySorted_app in Hsorted as (H12 & _ & H2).
  apply StronglySorted_cons in H2 as [Hlt _].
  apply Forall_app. split.
  - apply (ids_no_match _ _ _ zs1); [done|].
    apply Forall_forall. intros z Hz.
    assert (z < id)%Z; [|lia]. apply H12; [done | by left].
  - apply (ids_no_match _ _ _ zs2); [done|].
    eapply Forall_impl; [exact Hlt|]. simpl. intros; lia.
Qed.

Lemma Inv_counter_unused s :
  Inv s → Forall (λ u, has_id (heap s) (nextId s) u = false) (users s).
Proof.
  intros (_ & zs & Hids & _ & Hbound).
  apply (ids_no_match _ _ _ zs); [done|].
  eapply Forall_impl; [exact Hbound|]. simpl. intros; lia.
Qed.

End Invariant.

(** ** The properties of the specification: the resource service *)

Module UsersServiceSpec.
Import JS UsersService JSFacts UsersServiceFacts Invariant.

Implicit Types (s : state) (id : Z) (u : loc) (dto : obj).

(** A [create] increments the counter; the other calls leave it alone. *)
Lemma exec_nextId s c :
  nextId (snd (exec c s)) =
    match c with
    | CallCreate _ => (nextId s + 1)%Z
    | _ => nextId s
    end.
Proof.
  destruct c as [|id|d|id d|id]; unfold exec, bind.
  - done.
  - destruct (lookup_total s id) as [Hn | (l1 & u & l2 & E & Hl1 & Hu)].
    + by rewrite (findOne_absent _ _ Hn).
    + by rewrite (findOne_first _ _ _ _ _ E Hl1 Hu).
  - by rewrite create_eq.
  - destruct (lookup_total s id) as [Hn | (l1 & u & l2 & E & Hl1 & Hu)].
    + by rewrite (update_absent _ _ _ Hn).
    + by rewrite (update_first _ _ _ _ _ _ E Hl1 Hu).
  - destruct (lookup_total s id) as [Hn | (l1 & u & l2 & E & Hl1 & Hu)].
    + by rewrite (remove_absent _ _ Hn).
    + by rewrite (remove_first _ _ _ _ _ E Hl1 Hu).
Qed.

Lemma create_returns s (d : CreateUserDto.t) :
  ∃ u s',
    create (CreateUserDto.to_obj d) s = (Ok u, s') ∧
    user_id s' u = Some (nextId s) ∧
    nextId s' = (nextId s + 1)%Z.
Proof.
  rewrite create_eq. eexists _, _. split; [done|]. split; [|done].
  unfold user_id. simpl. rewrite lookup_insert_eq. simpl.
  apply created_id, CreateUserDto_no_id.
Qed.

(** The ids handed out from a state on: increasing, from the counter up. *)
Lemma created_ids_increasing cs s :
  ∃ zs,
    created_ids cs s = Some <$> zs ∧
    StronglySorted Z.lt zs ∧
    Forall (λ z, (nextId s ≤ z)%Z) zs.
Proof.
  revert s. induction cs as [|c cs IH]; intros s.
  - exists []. repeat split; constructor.
  - destruct (IH (snd (exec c s))) as (zs & Hzs & Hsorted & Hbound).
    rewrite exec_nextId in Hbound. simpl.
    destruct c as [|id|d|id d|id];
      try (destruct (exec _ s) as [[[]|] s'] eqn:E; simpl in *;
           exists zs; by repeat split).
    destruct (create_returns s d) as (u & s' & Hc & Hid & Hn).
    unfold exec, bind in *. rewrite Hc in *. simpl in *.
    exists (nextId s :: zs). rewrite Hid, Hzs. split; [done|]. split.
    + constructor; [done|]. eapply Forall_impl; [exact Hbound|]. simpl. intros; lia.
    + constructor; [lia|]. eapply Forall_impl; [exact Hbound|]. simpl. intros; lia.
Qed.

Lemma sorted_lt_NoDup (zs : list Z) : StronglySorted Z.lt zs → NoDup zs.
Proof.
  induction 1 as [|z zs _ IH Hz]; constructor; [|done].
  intros Hin. rewrite Forall_forall in Hz. apply Hz in Hin. lia.
Qed.

(** C1. The counter starts at 4, past the seeded ids 1, 2, 3, so that the
    first [create] hands out 4.  A [create] gives its record the value of
    the counter as id, increments the counter, appends the record at
    the end of the collection and returns it.  Over every sequence of
    calls from the seeded state, removals included, the ids that the
    [create] calls hand out are pairwise distinct, and none is a seeded
    id. *)
Theorem create_assigns_sequential_ids :
  nextId init = 4%Z ∧
  ids init = [Some 1; Some 2; Some 3]%Z ∧
  (∀ d : CreateUserDto.t, ∃ u s',
     create (CreateUserDto.to_obj d) init = (Ok u, s') ∧ user_id s' u = Some 4%Z) ∧
  (∀ s (d : CreateUserDto.t), ∃ u s',
     create (CreateUserDto.to_obj d) s = (Ok u, s') ∧
     heap s !! u = None ∧
     heap s' = <[u := {[ "id" := VNum (nextId s);
                         "name" := VStr (CreateUserDto.name d);
                         "email" := VStr (CreateUserDto.email d) ]}]> (heap s) ∧
     nextId s' = (nextId s + 1)%Z ∧
     users s' = users s ++ [u]) ∧
  (∀ cs : list call, ∃ zs,
     created_ids cs init = Some <$> zs ∧
     NoDup zs ∧
     Forall (λ z, z ∉ [1; 2; 3]%Z) zs).
Proof.
  split; [done|]. split; [done|]. split; [|split].
  - intros d. destruct (create_returns init d) as (u & s' & Hc & Hid & _). eauto.
  - intros s d. rewrite create_eq. eexists _, _. split; [done|]. simpl.
    split; [|by repeat split].
    apply not_elem_of_dom, is_fresh.
  - intros cs. destruct (created_ids_increasing cs init) as (zs & Hzs & Hsorted & Hbound).
    exists zs. split; [done|]. split; [by apply sorted_lt_NoDup|].
    eapply Forall_impl; [exact Hbound|]. simpl. intros z Hz Hin.
    change (nextId init) with 4%Z in Hz.
    repeat (apply elem_of_cons in Hin as [->|Hin]; [lia|]).
    by apply elem_of_nil in Hin.
Qed.

(** The example of the specification, run on the seeded state. *)
Example create_get_delete_example :
  let dto := CreateUserDto.to_obj (CreateUserDto.mk "X" "x@y.com") in
  ∃ u s1 s2,
    create dto init = (Ok u, s1) ∧
    findOne 4 s1 = (Ok u, s1) ∧
    heap s1 !! u = Some {[ "id" := VNum 4; "name" := VStr "X";
                           "email" := VStr "x@y.com" ]} ∧
    remove 4 s1 = (Ok tt, s2) ∧
    findOne 4 s2 = (Throw (NotFoundException "User #4 not found"), s2).
Proof. eexists _, _, _. repeat split. Qed.

(** C2. For an id that no record of the collection has, [findOne],
    [update] and [remove] each throw [NotFoundException], the only
    exception there is; for an id that some record has, none of them
    throws. *)
Theorem not_found_exactly_when_absent s id dto :
  (present s id = false →
     findOne id s = (Throw (NotFoundException (not_found_message id)), s) ∧
     update id dto s = (Throw (NotFoundException (not_found_message id)), s) ∧
     remove id s = (Throw (NotFoundException (not_found_message id)), s)) ∧
  (present s id = true →
     (∃ u, findOne id s = (Ok u, s)) ∧
     (∃ u s', update id dto s = (Ok u, s')) ∧
     (∃ s', remove id s = (Ok tt, s'))).
Proof.
  destruct (lookup_total s id) as [Hn | (l1 & u & l2 & E & Hl1 & Hu)].
  - split; intros Hp.
    + by rewrite (findOne_absent _ _ Hn), (update_absent _ _ _ Hn),
        (remove_absent _ _ Hn).
    + apply present_false in Hn. congruence.
  - split; intros Hp.
    + rewrite (present_first _ _ _ _ _ E Hu) in Hp. done.
    + rewrite (findOne_first _ _ _ _ _ E Hl1 Hu),
        (update_first _ _ _ _ _ _ E Hl1 Hu), (remove_first _ _ _ _ _ E Hl1 Hu).
      split; [by exists u|]. split; [by eexists _, _ | by eexists].
Qed.

Lemma not_found_exactly_when_absent_witness :
  (findOne 999 init = (Throw (NotFoundException "User #999 not found"), init) ∧
   update 999 {[ "name" := VStr "N" ]} init
     = (Throw (NotFoundException "User #999 not found"), init) ∧
   remove 999 init = (Throw (NotFoundException "User #999 not found"), init)) ∧
  ((∃ u, findOne 2 init = (Ok u, init)) ∧
   (∃ u s', update 2 {[ "name" := VStr "N" ]} init = (Ok u, s')) ∧
   (∃ s', remove 2 init = (Ok tt, s'))).
Proof.
  split.
  - apply (not_found_exactly_when_absent init 999 {[ "name" := VStr "N" ]}).
    reflexivity.
  - apply (not_found_exactly_when_absent init 2 {[ "name" := VStr "N" ]}).
    reflexivity.
Defined.

(** C3. For a record present with id [id] and any set of fields [dto],
    [update id dto] writes on that record every field of [dto], leaves
    every other field of the record as it was, and returns the record;
    the collection, the counter and the other objects stay.  With a DTO
    of the declared type, [name] and [email] are overwritten when given
    and the [id] stays. *)
Theorem update_overwrites_named_fields s id dto :
  present s id = true →
  ∃ u o o' s',
    findOne id s = (Ok u, s) ∧
    heap s !! u = Some o ∧
    update id dto s = (Ok u, s') ∧
    heap s' !! u = Some o' ∧
    (∀ k v, dto !! k = Some v → o' !! k = Some v) ∧
    (∀ k, dto !! k = None → o' !! k = o !! k) ∧
    (∀ u', u' ≠ u → heap s' !! u' = heap s !! u') ∧
    users s' = users s ∧
    nextId s' = nextId s ∧
    (∀ d : UpdateUserDto.t, dto = UpdateUserDto.to_obj d →
       get o' "name" = from_option VStr (get o "name") (UpdateUserDto.name d) ∧
       get o' "email" = from_option VStr (get o "email") (UpdateUserDto.email d) ∧
       get o' "id" = get o "id").
Proof.
  intros Hp.
  destruct (lookup_total s id) as [Hn | (l1 & u & l2 & E & Hl1 & Hu)].
  { apply present_false in Hn. congruence. }
  destruct (proj1 (has_id_true s id u) Hu) as (o & Ho & _).
  exists u, o, (assign o dto). eexists.
  split; [by apply (findOne_first _ _ l1 u l2)|].
  split; [done|].
  split; [by apply (update_first _ _ _ l1 u l2)|]. simpl.
  split; [by rewrite lookup_alter_eq, Ho|].
  split; [intros k v Hk; unfold assign; by apply lookup_union_Some_l|].
  split; [intros k Hk; unfold assign; by apply lookup_union_r|].
  split; [intros u' Hne; by apply lookup_alter_ne|].
  split; [done|]. split; [done|].
  intros d ->. rewrite !get_assign.
  rewrite UpdateUserDto_name, UpdateUserDto_email, UpdateUserDto_no_id.
  by destruct d as [[n|] [e|]].
Qed.

Lemma update_overwrites_named_fields_witness :
  ∃ u o o' s',
    findOne 2 init = (Ok u, init) ∧
    heap init !! u = Some o ∧
    update 2 {[ "email" := VStr "bob@new.org" ]} init = (Ok u, s') ∧
    heap s' !! u = Some o' ∧
    (∀ k v, ({[ "email" := VStr "bob@new.org" ]} : obj) !! k = Some v → o' !! k = Some v) ∧
    (∀ k, ({[ "email" := VStr "bob@new.org" ]} : obj) !! k = None → o' !! k = o !! k) ∧
    (∀ u', u' ≠ u → heap s' !! u' = heap init !! u') ∧
    users s' = users init ∧
    nextId s' = nextId init ∧
    (∀ d : UpdateUserDto.t, {[ "email" := VStr "bob@new.org" ]} = UpdateUserDto.to_obj d →
       get o' "name" = from_option VStr (get o "name") (UpdateUserDto.name d) ∧
       get o' "email" = from_option VStr (get o "email") (UpdateUserDto.email d) ∧
       get o' "id" = get o "id").
Proof.
  apply (update_overwrites_named_fields init 2 {[ "email" := VStr "bob@new.org" ]}).
  reflexivity.
Defined.

(** A state reached by a create, an update and a removal, used below. *)
Lemma reachable_sample :
  reachable (run [CallCreate (CreateUserDto.mk "X" "x@y.com");
                  CallUpdate 1 (UpdateUserDto.mk (Some "A") None);
                  CallRemove 2] init).
Proof. by eexists. Qed.

(** C4. In a state of the service, for an id that some record has,
    [remove id] succeeds, after which [findOne id] throws
    [NotFoundException] and [findAll] returns one record less. *)
Theorem remove_then_not_found s id :
  reachable s → present s id = true →
  ∃ s' l l',
    remove id s = (Ok tt, s') ∧
    findOne id s' = (Throw (NotFoundException (not_found_message id)), s') ∧
    findAll s = (Ok l, s) ∧
    findAll s' = (Ok l', s') ∧
    length l = S (length l').
Proof.
  intros Hr Hp. apply reachable_Inv in Hr.
  destruct (lookup_total s id) as [Hn | (l1 & u & l2 & E & Hl1 & Hu)].
  { apply present_false in Hn. congruence. }
  eexists _, _, _.
  split; [by apply (remove_first _ _ l1 u l2)|].
  split; [|split; [done|split; [done|]]].
  - apply findOne_absent. simpl. by apply (Inv_unique s id l1 u l2).
  - simpl. rewrite E, !length_app. simpl. lia.
Qed.

Lemma remove_then_not_found_witness :
  ∃ s' l l',
    remove 3
      (run [CallCreate (CreateUserDto.mk "X" "x@y.com");
            CallUpdate 1 (UpdateUserDto.mk (Some "A") None);
            CallRemove 2] init) = (Ok tt, s') ∧
    findOne 3 s' = (Throw (NotFoundException (not_found_message 3)), s') ∧
    findAll
      (run [CallCreate (CreateUserDto.mk "X" "x@y.com");
            CallUpdate 1 (UpdateUserDto.mk (Some "A") None);
            CallRemove 2] init)
      = (Ok l,
         run [CallCreate (CreateUserDto.mk "X" "x@y.com");
              CallUpdate 1 (UpdateUserDto.mk (Some "A") None);
              CallRemove 2] init) ∧
    findAll s' = (Ok l', s') ∧
    length l = S (length l').
Proof.
  apply (remove_then_not_found _ 3 reachable_sample). reflexivity.
Defined.

(** C5. In a state of the service, for a DTO of the declared type,
    after [create] the result of [findAll] is one record longer, and
    [findOne] of the id of the record that [create] returned succeeds
    and returns that record. *)
Theorem create_then_retrievable s (d : CreateUserDto.t) :
  reachable s →
  ∃ u s' l l' z,
    create (CreateUserDto.to_obj d) s = (Ok u, s') ∧
    findAll s = (Ok l, s) ∧
    findAll s' = (Ok l', s') ∧
    length l' = S (length l) ∧
    user_id s' u = Some z ∧
    findOne z s' = (Ok u, s').
Proof.
  intros Hr. apply reachable_Inv in Hr.
  rewrite create_eq.
  set (u := fresh (dom (heap s))).
  set (o := assign {[ "id" := VNum (nextId s) ]} (CreateUserDto.to_obj d)).
  set (s' := mkState (nextId s + 1) (users s ++ [u]) (<[u := o]> (heap s))).
  assert (user_id s' u = Some (nextId s)) as Hid.
  { unfold user_id. simpl. rewrite lookup_insert_eq. simpl.
    apply created_id, CreateUserDto_no_id. }
  exists u, s', (users s), (users s'), (nextId s).
  split; [done|]. split; [done|]. split; [done|].
  split; [simpl; rewrite length_app; simpl; lia|].
  split; [done|].
  apply (findOne_first s' (nextId s) (users s) u []); [done| |by apply has_id_user_id].
  destruct Hr as (_ & zs & Hids & _ & Hbound).
  apply (ids_no_match s' (nextId s) (users s) zs).
  - by apply ids_alloc.
  - eapply Forall_impl; [exact Hbound|]. simpl. intros; lia.
Qed.

Lemma create_then_retrievable_witness :
  ∃ u s' l l' z,
    create (CreateUserDto.to_obj (CreateUserDto.mk "Y" "y@z.org"))
      (run [CallCreate (CreateUserDto.mk "X" "x@y.com");
            CallUpdate 1 (UpdateUserDto.mk (Some "A") None);
            CallRemove 2] init) = (Ok u, s') ∧
    findAll
      (run [CallCreate (CreateUserDto.mk "X" "x@y.com");
            CallUpdate 1 (UpdateUserDto.mk (Some "A") None);
            CallRemove 2] init)
      = (Ok l,
         run [CallCreate (CreateUserDto.mk "X" "x@y.com");
              CallUpdate 1 (UpdateUserDto.mk (Some "A") None);
              CallRemove 2] init) ∧
    findAll s' = (Ok l', s') ∧
    length l' = S (length l) ∧
    user_id s' u = Some z ∧
    findOne z s' = (Ok u, s').
Proof.
  apply (create_then_retrievable _ (CreateUserDto.mk "Y" "y@z.org") reachable_sample).
Defined.

(** C6. For an id that some record of the collection has, [findOne id]
    returns a record whose [id] is that id. *)
Theorem findOne_returns_matching_id s id :
  present s id = true →
  ∃ u o, findOne id s = (Ok u, s) ∧ heap s !! u = Some o ∧ get o "id" = VNum id.
Proof.
  intros Hp.
  destruct (lookup_total s id) as [Hn | (l1 & u & l2 & E & Hl1 & Hu)].
  { apply present_false in Hn. congruence. }
  destruct (proj1 (has_id_true s id u) Hu) as (o & Ho & Hid).
  exists u, o. split; [by apply (findOne_first _ _ l1 u l2) | done].
Qed.

Lemma findOne_returns_matching_id_witness :
  ∃ u o, findOne 3 init = (Ok u, init) ∧ heap init !! u = Some o ∧ get o "id" = VNum 3.
Proof. apply (findOne_returns_matching_id init 3). reflexivity. Defined.

(** C7. A call that throws leaves the collection, the counter and every
    record as they were: this holds of [findOne], [update] and [remove],
    the three methods that can throw; [findAll] and [create] never
    throw. *)
Theorem failed_call_changes_nothing s id dto :
  (∀ e s', findOne id s = (Throw e, s') → s' = s) ∧
  (∀ e s', update id dto s = (Throw e, s') → s' = s) ∧
  (∀ e s', remove id s = (Throw e, s') → s' = s) ∧
  (∃ l, findAll s = (Ok l, s)) ∧
  (∃ u s', create dto s = (Ok u, s')).
Proof.
  split; [|split; [|split; [|split]]].
  - intros e s'. unfold findOne.
    destruct (find _ _); unfold throw, ret; intros H; by inversion H.
  - intros e s'. unfold update, bind, findOne.
    destruct (find _ _); unfold throw, ret, Object_assign; intros H; by inversion H.
  - intros e s'. unfold remove.
    destruct (_ =? _)%Z; unfold throw; intros H; by inversion H.
  - by eexists.
  - rewrite create_eq. by eexists _, _.
Qed.

Lemma failed_call_changes_nothing_witness :
  snd (findOne 999 init) = init ∧
  snd (update 999 {[ "name" := VStr "N" ]} init) = init ∧
  snd (remove 999 init) = init.
Proof.
  pose proof (failed_call_changes_nothing init 999 {[ "name" := VStr "N" ]})
    as (H1 & H2 & H3 & _).
  split; [|split].
  - apply (H1 (NotFoundException "User #999 not found")). reflexivity.
  - apply (H2 (NotFoundException "User #999 not found")). reflexivity.
  - apply (H3 (NotFoundException "User #999 not found")). reflexivity.
Defined.


(** How each call changes the array. *)
Lemma exec_users s c :
  match c with
  | CallCreate _ => users (snd (exec c s)) = users s ++ [fresh (dom (heap s))]
  | CallRemove id =>
      (present s id = false ∧ users (snd (exec c s)) = users s) ∨
      (∃ l1 u l2,
         users s = l1 ++ u :: l2 ∧
         Forall (λ u', has_id (heap s) id u' = false) l1 ∧
         has_id (heap s) id u = true ∧
         users (snd (exec c s)) = l1 ++ l2)
  | _ => users (snd (exec c s)) = users s
  end.
Proof.
  destruct c as [|id|d|id d|id]; unfold exec, bind.
  - done.
  - destruct (lookup_total s id) as [Hn | (l1 & u & l2 & E & Hl1 & Hu)].
    + by rewrite (findOne_absent _ _ Hn).
    + by rewrite (findOne_first _ _ _ _ _ E Hl1 Hu).
  - by rewrite create_eq.
  - destruct (lookup_total s id) as [Hn | (l1 & u & l2 & E & Hl1 & Hu)].
    + by rewrite (update_absent _ _ _ Hn).
    + by rewrite (update_first _ _ _ _ _ _ E Hl1 Hu).
  - destruct (lookup_total s id) as [Hn | (l1 & u & l2 & E & Hl1 & Hu)].
    + left. rewrite (remove_absent _ _ Hn). by rewrite present_false.
    + right. rewrite (remove_first _ _ _ _ _ E Hl1 Hu). by exists l1, u, l2.
Qed.

(** No call changes the id of an allocated record. *)
Lemma exec_user_id s c u :
  is_Some (heap s !! u) → user_id (snd (exec c s)) u = user_id s u.
Proof.
  intros Hu. destruct c as [|id|d|id d|id]; unfold exec, bind.
  - done.
  - destruct (lookup_total s id) as [Hn | (l1 & u' & l2 & E & Hl1 & Hu')].
    + by rewrite (findOne_absent _ _ Hn).
    + by rewrite (findOne_first _ _ _ _ _ E Hl1 Hu').
  - rewrite create_eq. unfold user_id. simpl.
    rewrite lookup_insert_ne; [done|].
    intros <-. apply (is_fresh (dom (heap s))). by apply elem_of_dom.
  - destruct (lookup_total s id) as [Hn | (l1 & u' & l2 & E & Hl1 & Hu')].
    + by rewrite (update_absent _ _ _ Hn).
    + rewrite (update_first _ _ _ _ _ _ E Hl1 Hu'). unfold user_id at 1. simpl.
      apply user_id_assign, UpdateUserDto_no_id.
  - destruct (lookup_total s id) as [Hn | (l1 & u' & l2 & E & Hl1 & Hu')].
    + by rewrite (remove_absent _ _ Hn).
    + by rewrite (remove_first _ _ _ _ _ E Hl1 Hu').
Qed.

Lemma Inv_allocated s u : Inv s → u ∈ users s → is_Some (heap s !! u).
Proof.
  intros (_ & zs & Hids & _) Hu.
  apply (list_elem_of_fmap_2 (user_id s)) in Hu. unfold ids in Hids.
  rewrite Hids in Hu. apply list_elem_of_fmap in Hu as (z & Hz & _).
  unfold user_id in Hz. by destruct (heap s !! u).
Qed.

(** C8. The invariant [Inv] (every id is an integer greater than 0, and
    the ids strictly increase along the array, hence are pairwise
    distinct) holds in the seeded state and is preserved by every call,
    so it holds after every sequence of calls.  No call, [update]
    included, changes the id of a record of the collection.  [findAll]
    returns the whole array; a [create] appends to it, a [remove]
    takes one element out and leaves the others in their order, and the
    other calls leave it as it is. *)
Theorem collection_invariant :
  Inv init ∧
  (∀ s c, Inv s → Inv (snd (exec c s))) ∧
  (∀ cs, Inv (run cs init)) ∧
  (∀ s, Inv s →
     ∃ zs, ids s = Some <$> zs ∧ Forall (λ z, (0 < z)%Z) zs ∧ NoDup zs) ∧
  (∀ s c u, Inv s → u ∈ users s → user_id (snd (exec c s)) u = user_id s u) ∧
  (∀ s, findAll s = (Ok (users s), s)) ∧
  (∀ s c, Inv s →
     match c with
     | CallCreate _ =>
         ∃ u, (u ∉ users s) ∧ users (snd (exec c s)) = users s ++ [u]
     | CallRemove id =>
         (present s id = false ∧ users (snd (exec c s)) = users s) ∨
         (∃ l1 u l2,
            users s = l1 ++ u :: l2 ∧ user_id s u = Some id ∧
            users (snd (exec c s)) = l1 ++ l2)
     | _ => users (snd (exec c s)) = users s
     end).
Proof.
  split; [apply Inv_init|].
  split; [intros s c; apply Inv_exec|].
  split; [intros cs; apply Inv_run, Inv_init|].
  split; [|split; [|split; [done|]]].
  - intros s (_ & zs & Hids & Hsorted & Hbound). exists zs.
    split; [done|]. split; [|by apply sorted_lt_NoDup].
    eapply Forall_impl; [exact Hbound|]. simpl. intros; lia.
  - intros s c u HI Hu. by apply exec_user_id, Inv_allocated.
  - intros s c HI. pose proof (exec_users s c) as H.
    destruct c as [|id|d|id d|id]; try done.
    + exists (fresh (dom (heap s))). split; [|done].
      intros Hin. apply (Inv_allocated s _ HI) in Hin.
      apply (is_fresh (dom (heap s))). by apply elem_of_dom.
    + destruct H as [H | (l1 & u & l2 & E & _ & Hu & H)]; [by left|].
      right. exists l1, u, l2. split; [done|]. split; [|done].
      by apply has_id_user_id.
Qed.

Lemma collection_invariant_witness :
  Inv (snd (exec (CallUpdate 1 (UpdateUserDto.mk (Some "A") None)) init)) ∧
  user_id (snd (exec (CallUpdate 1 (UpdateUserDto.mk (Some "A") None)) init)) 1%positive
    = user_id init 1%positive ∧
  users (snd (exec (CallUpdate 1 (UpdateUserDto.mk (Some "A") None)) init))
    = users init.
Proof.
  pose proof collection_invariant as (H0 & Hstep & _ & _ & Hid & _ & Husers).
  split; [|split].
  - apply Hstep, H0.
  - apply Hid; [exact H0|]. vm_compute. left.
  - apply (Husers init (CallUpdate 1 (UpdateUserDto.mk (Some "A") None)) H0).
Defined.

(** A record created with an [id] of its own in the object (which the
    declared DTO type does not have) takes that id; [remove] then takes
    out the first of the two records with the id. *)
Example remove_first_of_duplicates :
  let dto : obj := {[ "id" := VNum 1; "name" := VStr "Mallory";
                      "email" := VStr "m@example.com" ]} in
  ∃ u s1 s2,
    create dto init = (Ok u, s1) ∧
    ids s1 = [Some 1; Some 2; Some 3; Some 1]%Z ∧
    remove 1 s1 = (Ok tt, s2) ∧
    ids s2 = [Some 2; Some 3; Some 1]%Z ∧
    findOne 1 s2 = (Ok u, s2).
Proof. eexists _, _, _. repeat split. Qed.

(** Likewise [Object.assign] copies an [id] property, if the object it
    is given has one. *)
Example update_copies_id_property :
  let dto : obj := {[ "id" := VNum 2 ]} in
  ∃ u s1,
    update 1 dto init = (Ok u, s1) ∧
    ids s1 = [Some 2; Some 2; Some 3]%Z.
Proof. eexists _, _. repeat split. Qed.

(** C10, amended.  For every collection and every id that some record
    of it has, [remove id] takes out exactly one element, the first
    record with that id: the array before is [l1 ++ u :: l2] with no
    record of [l1] having the id, the array after is [l1 ++ l2], and the
    heap, hence every field of every other record, and the counter are
    as before.  For an id that no record has, [remove id] throws and
    takes out nothing. *)
Theorem remove_takes_out_first_match s id :
  (present s id = true →
     ∃ l1 u l2,
       users s = l1 ++ u :: l2 ∧
       Forall (λ u', has_id (heap s) id u' = false) l1 ∧
       has_id (heap s) id u = true ∧
       remove id s = (Ok tt, mkState (nextId s) (l1 ++ l2) (heap s))) ∧
  (present s id = false →
     remove id s = (Throw (NotFoundException (not_found_message id)), s)).
Proof.
  destruct (lookup_total s id) as [Hn | (l1 & u & l2 & E & Hl1 & Hu)].
  - split; intros Hp.
    + apply present_false in Hn. congruence.
    + by apply remove_absent.
  - split; intros Hp.
    + exists l1, u, l2. repeat split; try done. by apply (remove_first _ _ _ u).
    + rewrite (present_first _ _ _ _ _ E Hu) in Hp. done.
Qed.

Lemma remove_takes_out_first_match_witness :
  (∃ l1 u l2,
     users init = l1 ++ u :: l2 ∧
     Forall (λ u', has_id (heap init) 2 u' = false) l1 ∧
     has_id (heap init) 2 u = true ∧
     remove 2 init = (Ok tt, mkState (nextId init) (l1 ++ l2) (heap init))) ∧
  remove 999 init = (Throw (NotFoundException (not_found_message 999)), init).
Proof.
  split.
  - apply (remove_takes_out_first_match init 2). reflexivity.
  - apply (remove_takes_out_first_match init 999). reflexivity.
Defined.

(** C10 as stated fails for an id that no record has: on the seeded
    state [remove 999] throws, and the array is not one element
    shorter. *)
Lemma remove_absent_takes_out_nothing :
  remove 999 init = (Throw (NotFoundException "User #999 not found"), init) ∧
  ¬ (∃ l1 u l2,
       users init = l1 ++ u :: l2 ∧
       users (snd (remove 999 init)) = l1 ++ l2).
Proof.
  split; [reflexivity|].
  intros (l1 & u & l2 & E1 & E2).
  change (snd (remove 999 init)) with init in E2.
  rewrite E1 in E2. apply (f_equal length) in E2.
  rewrite !length_app in E2. simpl in E2. lia.
Qed.

End UsersServiceSpec.


(** ** Facts about running scripts *)

Module LoadTestFacts.
Import JS LoadTest LogObserve.


Lemma member_document (v : value) (k : string) :
  is_document v = true → member v k = Ret (prop v k).
Proof. by destruct v. Qed.

Lemma json_body_Some (res : response) (v : value) :
  json_body res = Some v → res_body res = Body (Some v).
Proof. unfold json_body. destruct (res_body res); [done | by intros ->]. Qed.

Lemma sample_answers_json : answers_json sample_respond.
Proof.
  intros n [m u b p] Hm. simpl in Hm. unfold sample_respond. simpl.
  destruct m; try done; eexists; by split.
Qed.

Section run.
Context {W : Type}.
Variable respond : W → request → response * W.
Variable clock : W → Z * W.
Variable ENV_BASE_URL : option string.

(** The end of a case of [default_cases] in which the iteration ran to
    its end: the three responses were readable, and what was issued is
    the full sequence. *)
Ltac iteration_done res res0 res1 Hb Hb0 Hb1 :=
  left; split; [reflexivity|]; split;
  [ eexists res, res0, res1, _; split; [reflexivity|];
    unfold iteration_actions, returned_id, json_body, users_url, user_url;
    rewrite Hb1; simpl
  | let n := fresh "n" in
    let r := fresh "r" in
    let Hn := fresh "Hn" in
    intros n r Hn;
    destruct n as [|[|[|n]]]; simpl in Hn; inversion Hn; subst;
    unfold readable, json_body; rewrite ?Hb, ?Hb0, ?Hb1; by eauto ].

(** The end of a case in which the iteration threw at its response
    number [n]. *)
Ltac iteration_aborted n res Hb :=
  right; exists n, res; split; [reflexivity|]; split;
  [ unfold readable, json_body; rewrite Hb; by intros []
  | by split ].

(** The rest of an iteration after a create that answered with a
    document, and after one that answered with a text that is none. *)
Ltac iteration_tail_doc d res res0 res1 v1 Hb Hb0 Hb1 :=
  let x := fresh "x" in
  let Hx := fresh "Hx" in
  let Hundef := fresh "Hundef" in
  let Hst := fresh "Hst" in
  let Hu := fresh "Hu" in
  let Htr := fresh "Htr" in
  let Hsid := fresh "Hsid" in
  remember (prop v1 "id") as x eqn:Hx;
  assert (is_undefined x = true → truthy x = false) as Hundef
    by (by destruct x);
  destruct (truthy (setupUserId d)) eqn:Hsid; simpl;
  [destruct (clock _) as [? ?]; simpl; destruct (respond _ _) as [? ?]; simpl|];
  destruct (status res1 =? 201)%Z eqn:Hst; simpl;
  destruct (is_undefined x) eqn:Hu; simpl;
  destruct (truthy x) eqn:Htr; simpl;
  try (specialize (Hundef eq_refl); discriminate);
  try (destruct (respond _ _) as [? ?]; simpl);
  iteration_done res res0 res1 Hb Hb0 Hb1;
  rewrite <- Hx, Hsid, Hst, Htr; reflexivity.

Ltac iteration_tail_text d res res0 res1 Hb Hb0 Hb1 :=
  let Hst := fresh "Hst" in
  let Hsid := fresh "Hsid" in
  destruct (truthy (setupUserId d)) eqn:Hsid; simpl;
  [destruct (clock _) as [? ?]; simpl; destruct (respond _ _) as [? ?]; simpl|];
  destruct (status res1 =? 201)%Z eqn:Hst; simpl;
  iteration_done res res0 res1 Hb Hb0 Hb1;
  rewrite Hsid, Hst; reflexivity.

(** Whatever the server answers, an iteration either reads its first
    three responses, runs to its end and issues the full sequence, or
    throws at the first of the three that it cannot read, having issued
    the requests up to that one and nothing else. *)
Lemma default_cases (d : data) (w : W) :
  let r := run respond clock (default ENV_BASE_URL d) w in
  (fst (fst r) = Done tt ∧
   is_iteration_log ENV_BASE_URL d (log_of r) ∧
   (∀ n res, take 3 (received (log_of r)) !! n = Some res → readable n res)) ∨
  (∃ n res,
     take 3 (received (log_of r)) !! n = Some res ∧
     ¬ readable n res ∧
     fst (fst r) = Aborted JsonParseError ∧
     issued (log_of r) = take (S n) (first_actions ENV_BASE_URL)).
Proof.
  unfold log_of, default, group, read_operations, write_operations, first_actions,
    users_url.
  simpl.
  destruct (respond w _) as [res w0]; simpl. unfold json_at, json, json_body.
  destruct (res_body res) as [|[v|]] eqn:Hb; simpl;
    [iteration_aborted 0%nat res Hb| |iteration_aborted 0%nat res Hb].
  destruct (respond w0 _) as [res0 w1]; simpl.
  destruct (res_body res0) as [|[v0|]] eqn:Hb0; simpl;
    [iteration_aborted 1%nat res0 Hb0| |];
    destruct (clock w1) as [t w2]; simpl;
    destruct (clock w2) as [t0 w3]; simpl;
    destruct (respond w3 _) as [res1 w4]; simpl;
    (destruct (res_body res1) as [|[v1|]] eqn:Hb1; simpl;
     [iteration_aborted 2%nat res1 Hb1| |]).
  - iteration_tail_doc d res res0 res1 v1 Hb Hb0 Hb1.
  - iteration_tail_text d res res0 res1 Hb Hb0 Hb1.
  - iteration_tail_doc d res res0 res1 v1 Hb Hb0 Hb1.
  - iteration_tail_text d res res0 res1 Hb Hb0 Hb1.
Qed.



End run.

End LoadTestFacts.

(** ** The properties of the specification: the load script *)

Module LoadTestSpec.
Import JS LoadTest LogObserve LoadTestFacts.

(** An iteration whose create fails without a body, after a list request
    and a get that were answered: it stops after the three requests,
    without update, removal or sleep. *)
Example iteration_stops_at_failed_create :
  let respond := fun (w : unit) (req : request) =>
    match meth req with
    | GET => (mkResponse 200 (Body (Some (VArr []))) 1, w)
    | _ => (mkResponse 0 NoBody 0, w)
    end in
  let r := run respond silent_clock (default None (mkData (VNum 4))) tt in
  fst (fst r) = Aborted JsonParseError ∧
  issued (log_of r) =
    [Issue GET "http://localhost:3001/users";
     Issue GET "http://localhost:3001/users/1";
     Issue POST "http://localhost:3001/users"].
Proof. split; reflexivity. Qed.




End LoadTestSpec.


(** ** Further properties of the resource service *)

Module UsersServiceMore.
Import JS UsersService CallObserve JSFacts UsersServiceFacts Invariant.

Implicit Types (s : state) (id : Z) (u : loc) (dto : obj).

(** *** Helpers *)

Lemma find_ext {A : Type} (p q : A → bool) (l : list A) :
  (∀ x, p x = q x) → find p l = find q l.
Proof.
  intros H. induction l as [|x l IH]; simpl; [done|]. by rewrite H, IH.
Qed.

Lemma find_skip {A : Type} (p : A → bool) (l1 : list A) x l2 :
  p x = false → find p (l1 ++ x :: l2) = find p (l1 ++ l2).
Proof.
  intros Hx. induction l1 as [|y l1 IH]; simpl.
  - by rewrite Hx.
  - by rewrite IH.
Qed.

Lemma without_first_none {A : Type} (p : A → bool) (l : list A) :
  Forall (λ y, p y = false) l → without_first p l = l.
Proof. induction 1 as [|y l Hy _ IH]; simpl; [done|]. by rewrite Hy, IH. Qed.

Lemma without_first_first {A : Type} (p : A → bool) (l1 : list A) x l2 :
  Forall (λ y, p y = false) l1 → p x = true →
  without_first p (l1 ++ x :: l2) = l1 ++ l2.
Proof.
  intros Hl1 Hx. induction Hl1 as [|y l1 Hy _ IH]; simpl.
  - by rewrite Hx.
  - by rewrite Hy, IH.
Qed.

Lemma without_first_comm {A : Type} (p q : A → bool) (l : list A) :
  (∀ x, p x = true → q x = false) →
  without_first p (without_first q l) = without_first q (without_first p l).
Proof.
  intros Hpq. induction l as [|x l IH]; simpl; [done|].
  destruct (p x) eqn:Hp, (q x) eqn:Hq; simpl; rewrite ?Hp, ?Hq.
  - apply Hpq in Hp. congruence.
  - done.
  - done.
  - by rewrite IH.
Qed.

(** What [remove] leaves, as a function of the state. *)
Lemma remove_state s id :
  snd (remove id s) =
    mkState (nextId s) (without_first (has_id (heap s) id) (users s)) (heap s).
Proof.
  destruct (lookup_total s id) as [Hn | (l1 & u & l2 & E & Hl1 & Hu)].
  - rewrite (remove_absent _ _ Hn), (without_first_none _ _ Hn). by destruct s.
  - rewrite (remove_first _ _ _ _ _ E Hl1 Hu). simpl.
    by rewrite E, (without_first_first _ _ _ _ Hl1 Hu).
Qed.

(** Two different ids are never both the id of one record. *)
Lemma has_id_functional s id id' u :
  has_id (heap s) id u = true → id' ≠ id → has_id (heap s) id' u = false.
Proof.
  intros Hu Hne. apply has_id_user_id in Hu.
  by apply (user_id_ne _ _ _ id).
Qed.

(** [Object.assign] with an object without [id] does not change which
    records have which id. *)
Lemma has_id_assign (h : gmap loc obj) dto u id' u' :
  dto !! "id" = None →
  has_id (alter (λ o, assign o dto) u h) id' u' = has_id h id' u'.
Proof.
  intros Hdto. unfold has_id. destruct (decide (u = u')) as [->|Hne].
  - rewrite lookup_alter_eq. destruct (h !! u') as [o|]; simpl; [|done].
    by rewrite get_assign, Hdto.
  - by rewrite lookup_alter_ne.
Qed.

Lemma assign_idemp (o : obj) dto : assign (assign o dto) dto = assign o dto.
Proof. unfold assign. by rewrite (assoc_L (∪)), (idemp_L (∪)). Qed.

(** In a state of the service, the record that [create] appends is the
    first with the value of the counter as id. *)
Lemma created_is_first_match s dto :
  Inv s → dto !! "id" = None →
  Forall (λ u', has_id (heap (snd (create dto s))) (nextId s) u' = false) (users s) ∧
  has_id (heap (snd (create dto s))) (nextId s) (fresh (dom (heap s))) = true.
Proof.
  intros (_ & zs & Hids & _ & Hbound) Hdto. rewrite create_eq.
  set (s1 := snd _). split.
  - apply (ids_no_match s1 (nextId s) (users s) zs).
    + by apply ids_alloc.
    + eapply Forall_impl; [exact Hbound|]. simpl. intros; lia.
  - apply has_id_user_id. unfold user_id, s1. simpl.
    rewrite lookup_insert_eq. simpl. by apply created_id.
Qed.

(** *** The counter *)

(** X1. After any sequence of calls the counter is its value before plus
    the number of [create] calls of the sequence: removals, updates and
    failed calls do not move it. *)
Theorem counter_counts_creates (cs : list call) s :
  nextId (run cs s) = (nextId s + Z.of_nat (creates cs))%Z.
Proof.
  revert s. induction cs as [|c cs IH]; intros s; simpl.
  - unfold creates. simpl. lia.
  - rewrite IH, UsersServiceSpec.exec_nextId. unfold creates.
    destruct c; simpl; lia.
Qed.

(** X2. In a state of the service the collection holds fewer records
    than the counter's value. *)
Theorem collection_smaller_than_counter s :
  reachable s → (Z.of_nat (length (users s)) < nextId s)%Z.
Proof.
  intros Hr. apply reachable_Inv in Hr as (Hpos & zs & Hids & Hsorted & Hbound).
  assert (length (users s) = length zs) as ->.
  { apply (f_equal length) in Hids. unfold ids in Hids.
    by rewrite !length_fmap in Hids. }
  assert (∀ lo, Forall (λ z, lo < z < nextId s)%Z zs →
                (lo < nextId s)%Z → (Z.of_nat (length zs) < nextId s - lo)%Z) as H.
  { clear Hids Hbound. induction Hsorted as [|z zs _ IH Hz]; intros lo Hb Hlo.
    - simpl. lia.
    - apply Forall_cons in Hb as [Hzb Hb].
      assert (Z.of_nat (length zs) < nextId s - z)%Z; [|simpl; lia].
      apply IH; [|lia].
      rewrite Forall_forall in Hz, Hb |- *. intros y Hy.
      specialize (Hz y Hy). specialize (Hb y Hy). lia. }
  specialize (H 0%Z Hbound Hpos). lia.
Qed.

Lemma collection_smaller_than_counter_witness :
  (Z.of_nat (length (users sample_state)) < nextId sample_state)%Z.
Proof.
  apply collection_smaller_than_counter. exists
    [CallCreate (CreateUserDto.mk "X" "x@y.com");
     CallUpdate 1 (UpdateUserDto.mk (Some "A") None);
     CallRemove 2]. reflexivity.
Defined.

(** *** How calls compose *)

(** X3. In a state of the service, a [create] followed by the removal of
    the id that the new record got leaves the array as it was before the
    [create], with the counter one higher and every object of before
    untouched. *)
Theorem create_then_remove_restores s (d : CreateUserDto.t) :
  reachable s →
  ∃ u s1 z s2,
    create (CreateUserDto.to_obj d) s = (Ok u, s1) ∧
    user_id s1 u = Some z ∧
    remove z s1 = (Ok tt, s2) ∧
    users s2 = users s ∧
    nextId s2 = (nextId s + 1)%Z ∧
    heap s !! u = None ∧
    (∀ u', u' ≠ u → heap s2 !! u' = heap s !! u').
Proof.
  intros Hr. apply reachable_Inv in Hr.
  destruct (created_is_first_match s _ Hr (CreateUserDto_no_id d)) as [Hold Hnew].
  rewrite create_eq in Hold, Hnew |- *.
  set (u := fresh (dom (heap s))) in *.
  set (s1 := mkState _ _ _) in *. simpl in Hold, Hnew.
  exists u, s1, (nextId s). eexists.
  split; [done|].
  split; [by apply has_id_user_id|].
  split; [by apply (remove_first s1 (nextId s) (users s) u [])|]. simpl.
  split; [by rewrite app_nil_r|]. split; [done|].
  split; [apply not_elem_of_dom, is_fresh|].
  intros u' Hne. by rewrite lookup_insert_ne.
Qed.

Lemma create_then_remove_restores_witness :
  ∃ u s1 z s2,
    create (CreateUserDto.to_obj (CreateUserDto.mk "Y" "y@z.org")) sample_state
      = (Ok u, s1) ∧
    user_id s1 u = Some z ∧
    remove z s1 = (Ok tt, s2) ∧
    users s2 = users sample_state ∧
    nextId s2 = (nextId sample_state + 1)%Z ∧
    heap sample_state !! u = None ∧
    (∀ u', u' ≠ u → heap s2 !! u' = heap sample_state !! u').
Proof.
  apply (create_then_remove_restores sample_state (CreateUserDto.mk "Y" "y@z.org")).
  exists
    [CallCreate (CreateUserDto.mk "X" "x@y.com");
     CallUpdate 1 (UpdateUserDto.mk (Some "A") None);
     CallRemove 2]. reflexivity.
Defined.

(** X4. An [update] with an object without properties is a lookup: it
    returns what [findOne] returns, or throws as [findOne] does, and
    changes nothing. *)
Theorem update_without_fields_is_lookup s id :
  update id ∅ s = findOne id s.
Proof.
  destruct (lookup_total s id) as [Hn | (l1 & u & l2 & E & Hl1 & Hu)].
  - by rewrite (update_absent _ _ _ Hn), (findOne_absent _ _ Hn).
  - rewrite (update_first _ _ _ _ _ _ E Hl1 Hu), (findOne_first _ _ _ _ _ E Hl1 Hu).
    f_equal. destruct s as [n us h]. simpl. f_equal.
    apply map_eq. intros i. rewrite lookup_alter. case_decide; [|done]. subst i.
    destruct (h !! u) as [o|]; simpl; [|done].
    unfold assign. by rewrite (left_id_L ∅ (∪)).
Qed.

(** X5. With an object without [id] property, repeating an [update] gives
    the same result and the same state as doing it once. *)
Theorem update_idempotent s id dto :
  dto !! "id" = None →
  update id dto (snd (update id dto s)) = update id dto s.
Proof.
  intros Hdto.
  destruct (lookup_total s id) as [Hn | (l1 & u & l2 & E & Hl1 & Hu)].
  - rewrite (update_absent _ _ _ Hn). simpl. by apply update_absent.
  - rewrite (update_first _ _ _ _ _ _ E Hl1 Hu). simpl.
    set (s1 := mkState _ _ _).
    rewrite (update_first s1 id dto l1 u l2); simpl.
    + f_equal. unfold s1. f_equal.
      apply map_eq. intros i. destruct (decide (u = i)) as [->|Hne].
      * rewrite !lookup_alter_eq.
        destruct (heap s !! i) as [o|]; simpl; [|done]. by rewrite assign_idemp.
      * by rewrite !lookup_alter_ne.
    + done.
    + eapply Forall_impl; [exact Hl1|]. simpl. intros u' Hu'.
      by rewrite has_id_assign.
    + by rewrite has_id_assign.
Qed.

Lemma update_idempotent_witness :
  update 3 {[ "name" := VStr "C" ]} (snd (update 3 {[ "name" := VStr "C" ]} sample_state))
    = update 3 {[ "name" := VStr "C" ]} sample_state.
Proof. apply update_idempotent. reflexivity. Defined.

(** X6. With an object without [id] property, an [update] returns the
    record that [findOne] finds for its id, and does not change what
    [findOne] finds for any id. *)
Theorem update_keeps_lookups s id dto :
  dto !! "id" = None →
  fst (update id dto s) = fst (findOne id s) ∧
  ∀ id', fst (findOne id' (snd (update id dto s))) = fst (findOne id' s).
Proof.
  intros Hdto.
  destruct (lookup_total s id) as [Hn | (l1 & u & l2 & E & Hl1 & Hu)].
  - by rewrite (update_absent _ _ _ Hn), (findOne_absent _ _ Hn).
  - rewrite (update_first _ _ _ _ _ _ E Hl1 Hu), (findOne_first _ _ _ _ _ E Hl1 Hu).
    split; [done|]. intros id'. unfold findOne. simpl.
    rewrite (find_ext _ (has_id (heap s) id'));
      [|intros u'; by apply has_id_assign].
    by destruct (find _ _).
Qed.

Lemma update_keeps_lookups_witness :
  fst (update 3 {[ "name" := VStr "C" ]} sample_state) = fst (findOne 3 sample_state) ∧
  ∀ id', fst (findOne id' (snd (update 3 {[ "name" := VStr "C" ]} sample_state)))
         = fst (findOne id' sample_state).
Proof. apply update_keeps_lookups. reflexivity. Defined.

(** X7. A [remove] does not change what [findOne] finds for any other
    id. *)
Theorem remove_keeps_other_lookups s id id' :
  id' ≠ id →
  fst (findOne id' (snd (remove id s))) = fst (findOne id' s).
Proof.
  intros Hne.
  destruct (lookup_total s id) as [Hn | (l1 & u & l2 & E & Hl1 & Hu)].
  - by rewrite (remove_absent _ _ Hn).
  - rewrite (remove_first _ _ _ _ _ E Hl1 Hu). unfold findOne. simpl.
    rewrite E, (find_skip _ l1 u l2); [|by apply (has_id_functional s id)].
    by destruct (find _ _).
Qed.

Lemma remove_keeps_other_lookups_witness :
  fst (findOne 3 (snd (remove 1 sample_state))) = fst (findOne 3 sample_state).
Proof. apply remove_keeps_other_lookups. lia. Defined.

(** X8. Two removals commute: in either order they leave the same
    state. *)
Theorem removals_commute s id id' :
  snd (remove id (snd (remove id' s))) = snd (remove id' (snd (remove id s))).
Proof.
  destruct (decide (id = id')) as [->|Hne]; [done|].
  rewrite !remove_state. simpl. f_equal.
  apply without_first_comm. intros u Hu.
  by apply (has_id_functional s id).
Qed.

Lemma find_snoc {A : Type} (p : A → bool) (l : list A) x :
  find p (l ++ [x]) =
    match find p l with
    | Some y => Some y
    | None => if p x then Some x else None
    end.
Proof.
  induction l as [|y l IH]; simpl; [done|]. by destruct (p y).
Qed.

Lemma find_ext_in {A : Type} (p q : A → bool) (l : list A) :
  Forall (λ x, p x = q x) l → find p l = find q l.
Proof. induction 1 as [|x l Hx _ IH]; simpl; [done|]. by rewrite Hx, IH. Qed.

(** X9. In a state of the service, a [create] does not change what
    [findOne] finds for any id other than the one it hands out. *)
Theorem create_keeps_other_lookups s (d : CreateUserDto.t) id :
  reachable s → id ≠ nextId s →
  fst (findOne id (snd (create (CreateUserDto.to_obj d) s))) = fst (findOne id s).
Proof.
  intros Hr Hne. apply reachable_Inv in Hr.
  rewrite create_eq. unfold findOne. simpl.
  set (u := fresh (dom (heap s))).
  set (o := assign _ _).
  rewrite find_snoc.
  rewrite (find_ext_in _ (has_id (heap s) id) (users s)).
  - destruct (find (has_id (heap s) id) (users s)); [done|].
    assert (has_id (<[u:=o]> (heap s)) id u = false) as ->; [|done].
    unfold has_id. rewrite lookup_insert_eq. unfold o.
    rewrite get_assign, CreateUserDto_no_id. simpl.
    apply Z.eqb_neq. congruence.
  - apply Forall_forall. intros u' Hu'.
    apply (UsersServiceSpec.Inv_allocated s u' Hr) in Hu'.
    unfold has_id. rewrite lookup_insert_ne; [done|].
    intros <-. apply (is_fresh (dom (heap s))). by apply elem_of_dom.
Qed.

Lemma create_keeps_other_lookups_witness :
  fst (findOne 3 (snd (create (CreateUserDto.to_obj (CreateUserDto.mk "Y" "y@z.org"))
                         sample_state)))
    = fst (findOne 3 sample_state).
Proof.
  apply create_keeps_other_lookups.
  - exists
      [CallCreate (CreateUserDto.mk "X" "x@y.com");
       CallUpdate 1 (UpdateUserDto.mk (Some "A") None);
       CallRemove 2]. reflexivity.
  - vm_compute. discriminate.
Defined.

(** *** Objects that carry an [id] of their own *)

(** X10. [create] spreads the object it is given over the id it takes
    from the counter: when the object has an [id] property, the new
    record carries that value, and the counter is incremented all the
    same. *)
Theorem create_takes_id_of_object s dto (v : value) :
  dto !! "id" = Some v →
  ∃ u o s',
    create dto s = (Ok u, s') ∧
    heap s' !! u = Some o ∧
    get o "id" = v ∧
    nextId s' = (nextId s + 1)%Z.
Proof.
  intros Hdto. rewrite create_eq. eexists _, _, _. split; [done|]. simpl.
  split; [apply lookup_insert_eq|]. split; [|done].
  by rewrite get_assign, Hdto.
Qed.

Lemma create_takes_id_of_object_witness :
  ∃ u o s',
    create {[ "id" := VNum 1; "name" := VStr "M" ]} init = (Ok u, s') ∧
    heap s' !! u = Some o ∧
    get o "id" = VNum 1 ∧
    nextId s' = (nextId init + 1)%Z.
Proof. apply create_takes_id_of_object. reflexivity. Defined.

(** X11. [update] copies an [id] property as any other: in a state of
    the service, an update to another id gives the record that id, after
    which the record is not found under its old id. *)
Theorem update_rewrites_id s id id' dto :
  reachable s → present s id = true →
  dto !! "id" = Some (VNum id') → id' ≠ id →
  ∃ u s',
    update id dto s = (Ok u, s') ∧
    user_id s' u = Some id' ∧
    findOne id s' = (Throw (NotFoundException (not_found_message id)), s').
Proof.
  intros Hr Hp Hdto Hne. apply reachable_Inv in Hr.
  destruct (lookup_total s id) as [Hn | (l1 & u & l2 & E & Hl1 & Hu)].
  { apply present_false in Hn. congruence. }
  pose proof (Inv_unique s id l1 u l2 Hr E Hu) as Hothers.
  rewrite (update_first _ _ _ _ _ _ E Hl1 Hu).
  set (s' := mkState _ _ _). exists u, s'. split; [done|].
  destruct (proj1 (has_id_true s id u) Hu) as (o & Ho & _).
  assert (user_id s' u = Some id') as Hid.
  { unfold user_id, s'. simpl. rewrite lookup_alter_eq, Ho. simpl.
    unfold id_of. by rewrite get_assign, Hdto. }
  split; [done|].
  apply findOne_absent. unfold s' at 2. simpl. rewrite E.
  assert (∀ u', has_id (heap s) id u' = false → has_id (heap s') id u' = false) as Hk.
  { intros u' Hu'. destruct (decide (u' = u)) as [->|Hneq].
    - by apply (user_id_ne s' id u id').
    - unfold has_id, s'. simpl. by rewrite lookup_alter_ne. }
  apply Forall_app in Hothers as [H1 H2].
  apply Forall_app. split; [|constructor].
  - eapply Forall_impl; [exact H1|]. exact Hk.
  - by apply (user_id_ne s' id u id').
  - eapply Forall_impl; [exact H2|]. exact Hk.
Qed.

Lemma update_rewrites_id_witness :
  ∃ u s',
    update 3 {[ "id" := VNum 7 ]} sample_state = (Ok u, s') ∧
    user_id s' u = Some 7%Z ∧
    findOne 3 s' = (Throw (NotFoundException (not_found_message 3)), s').
Proof.
  apply (update_rewrites_id sample_state 3 7 {[ "id" := VNum 7 ]}).
  - exists
      [CallCreate (CreateUserDto.mk "X" "x@y.com");
       CallUpdate 1 (UpdateUserDto.mk (Some "A") None);
       CallRemove 2]. reflexivity.
  - reflexivity.
  - reflexivity.
  - lia.
Defined.

End UsersServiceMore.


(** ** Further properties of the load script *)

Module LoadTestMore.
Import JS LoadTest LogObserve LoadTestFacts.

(** X12. [taggedParams] keeps the headers and the other tags of [extra]
    and sets the [name] tag, over a [name] tag that [extra] may have: of
    two nested calls the outer name stays. *)
Theorem taggedParams_sets_name (name : string) (extra : params) :
  headers (taggedParams name extra) = headers extra ∧
  tags (taggedParams name extra) !! "name" = Some name ∧
  (∀ k, k ≠ "name" → tags (taggedParams name extra) !! k = tags extra !! k) ∧
  (∀ name', taggedParams name (taggedParams name' extra) = taggedParams name extra).
Proof.
  unfold taggedParams. simpl. split; [done|].
  split; [apply lookup_insert_eq|].
  split; [intros k Hk; by apply lookup_insert_ne|].
  intros name'. by rewrite insert_insert_eq.
Qed.

Lemma taggedParams_sets_name_witness :
  tags (taggedParams "POST /users" (mkParams ∅ {[ "group" := "write" ]})) !! "group"
    = Some "write".
Proof.
  destruct (taggedParams_sets_name "POST /users" (mkParams ∅ {[ "group" := "write" ]}))
    as (_ & _ & H & _).
  rewrite H; [reflexivity | discriminate].
Defined.

Section run.
Context {W : Type}.
Variable respond : W → request → response * W.
Variable clock : W → Z * W.
Variable ENV_BASE_URL : option string.

(** One step of a symbolic run against any server: name the answer, the
    document it may carry, the reading of the clock, or the value of a
    condition. *)
Ltac run_any :=
  repeat first
    [ match goal with
      | |- context [respond ?w ?req] =>
          let res := fresh "res" in
          let w1 := fresh "w" in
          destruct (respond w req) as [res w1]
      | |- context [clock ?w] =>
          let t := fresh "t" in
          let w1 := fresh "w" in
          destruct (clock w) as [t w1]
      | |- context [res_body ?res] =>
          let v := fresh "v" in
          destruct (res_body res) as [|[v|]] eqn:?
      | |- context [if ?b then _ else _] => destruct b eqn:?
      end
    | progress (simpl; unfold json_at, json, json_body; simpl) ].

(** The names that the script tags its requests with, by method: each
    spells the method and has a duration threshold in the options. *)
Lemma tag_has_threshold (m : method) (name : string) :
  (m, name) ∈ [(GET, "GET /users"); (GET, "GET /users/:id"); (POST, "POST /users");
               (PUT, "PUT /users/:id"); (DELETE, "DELETE /users/:id")] →
  String.prefix (method_name m +:+ " /users") name = true ∧
  is_Some (LoadTestOptions.thresholds LoadTestOptions.options
             !! LoadTestOptions.duration_threshold_key name).
Proof.
  intros H.
  repeat (apply elem_of_cons in H as [H|H];
          [inversion H; split; [reflexivity | eexists; reflexivity]|]).
  by apply elem_of_nil in H.
Qed.

(** Each request of an explicit list is tagged and has the header that
    goes with its body. *)
Ltac requests_ok :=
  repeat (apply Forall_cons; split;
          [split;
           [eexists; (split; [reflexivity|]); apply tag_has_threshold;
            repeat first [apply list_elem_of_here | apply list_elem_of_further]
           | reflexivity]|]);
  apply Forall_nil; exact I.

(** What every request of an iteration satisfies, whatever the server
    answers: its tag, and its header against its body. *)
Lemma default_requests (d : data) (w : W) :
  Forall
    (λ req,
       (∃ name,
          tag_name req = Some name ∧
          String.prefix (method_name (meth req) +:+ " /users") name = true ∧
          is_Some (LoadTestOptions.thresholds LoadTestOptions.options
                     !! LoadTestOptions.duration_threshold_key name)) ∧
       content_type req =
         match body req with
         | Some _ => Some "application/json"
         | None => None
         end)
    (requests (log_of (run respond clock (default ENV_BASE_URL d) w))).
Proof.
  unfold log_of, default, group, read_operations, write_operations.
  simpl.
  destruct (respond w _) as [res w0]; simpl. unfold json_at, json, json_body.
  destruct (res_body res) as [|[v|]]; simpl; [requests_ok| |requests_ok].
  destruct (respond w0 _) as [res0 w1]; simpl.
  destruct (res_body res0) as [|[v0|]]; simpl; [requests_ok| |];
    destruct (clock w1) as [t w2]; simpl;
    destruct (clock w2) as [t0 w3]; simpl;
    destruct (respond w3 _) as [res1 w4]; simpl;
    (destruct (res_body res1) as [|[v1|]]; simpl; [requests_ok| |]);
    (destruct (truthy (setupUserId d)); simpl;
     [destruct (clock w4) as [t1 w5]; simpl;
      destruct (respond w5 _) as [res2 w6]; simpl|]);
    destruct (status res1 =? 201)%Z; simpl;
    try (destruct (is_undefined (prop v1 "id")); simpl;
         destruct (truthy (prop v1 "id")); simpl);
    try (destruct (respond _ _) as [res3 w7]; simpl);
    requests_ok.
Qed.

(** X13. Whatever the server answers, every request of an iteration is
    tagged with a name that spells the method of the request and for
    which the options bound the request duration. *)
Theorem iteration_requests_tagged (d : data) (w : W) :
  Forall
    (λ req, ∃ name,
       tag_name req = Some name ∧
       String.prefix (method_name (meth req) +:+ " /users") name = true ∧
       is_Some (LoadTestOptions.thresholds LoadTestOptions.options
                  !! LoadTestOptions.duration_threshold_key name))
    (requests (log_of (run respond clock (default ENV_BASE_URL d) w))).
Proof.
  eapply Forall_impl; [apply default_requests|]. simpl. by intros req [H _].
Qed.

(** X14. Whatever the server answers, a request of [setup], of an
    iteration or of [teardown] has the header [Content-Type:
    application/json] when it has a body, and no [Content-Type] header
    when it has none. *)
Theorem body_has_json_content_type (d : data) (w : W) :
  let Q := λ req,
    content_type req =
      match body req with
      | Some _ => Some "application/json"
      | None => None
      end in
  Forall Q (requests (log_of (run respond clock (setup ENV_BASE_URL) w))) ∧
  Forall Q (requests (log_of (run respond clock (default ENV_BASE_URL d) w))) ∧
  Forall Q (requests (log_of (run respond clock (teardown ENV_BASE_URL d) w))).
Proof.
  intros Q. split; [|split].
  - unfold log_of, setup, member. run_any.
    all: try (destruct v; simpl). all: by repeat constructor.
  - eapply Forall_impl; [apply default_requests|]. simpl. by intros req [_ H].
  - unfold log_of, teardown. run_any. all: by repeat constructor.
Qed.

(** X15. Whatever the server answers, [setup] issues the list request and
    the create, neither with a [name] tag, and then returns the [id] of
    the document of the create response; it throws when that response
    has no JSON body, or the document [null]. *)
Theorem setup_outcome (w : W) :
  ∃ res createRes o log w',
    run respond clock (setup ENV_BASE_URL) w = (o, log, w') ∧
    received log = [res; createRes] ∧
    issued log = setup_actions ENV_BASE_URL ∧
    Forall (λ req, tag_name req = None) (requests log) ∧
    o = match json_body createRes with
        | None => Aborted JsonParseError
        | Some VUndefined | Some VNull => Aborted TypeError
        | Some v => Done (mkData (prop v "id"))
        end.
Proof.
  unfold setup, member, setup_actions, users_url. simpl.
  destruct (respond w _) as [res w1]. simpl.
  destruct (respond w1 _) as [createRes w2]. simpl.
  unfold json, json_body.
  destruct (res_body createRes) as [|[v|]] eqn:Hbody; simpl;
    [|destruct v; simpl|];
    eexists res, createRes, _, _, _;
    (split; [reflexivity|]); (split; [reflexivity|]); (split; [reflexivity|]);
    (split; [|unfold json_body; by rewrite Hbody]);
    repeat (apply Forall_cons; split; [reflexivity|]); by apply Forall_nil.
Qed.

(** X16. Whatever the server answers, [teardown] does not throw; it
    issues the removal of the record of [setup] when it was given a
    truthy id and nothing otherwise, and the request has no body and no
    params. *)
Theorem teardown_never_throws (d : data) (w : W) :
  ∃ log w',
    run respond clock (teardown ENV_BASE_URL d) w = (Done tt, log, w') ∧
    issued log = teardown_actions ENV_BASE_URL d ∧
    Forall (λ req, body req = None ∧ req_params req = None) (requests log).
Proof.
  unfold teardown, teardown_actions, user_url.
  destruct (truthy (setupUserId d)); simpl.
  - destruct (respond w _) as [res w1]. simpl. eexists _, _.
    split; [reflexivity|]. split; [reflexivity|]. by repeat constructor.
  - eexists _, _. by repeat split.
Qed.

(** One step of a symbolic run against a server that answers with
    documents. *)
Ltac run_json Hjson :=
  match goal with
  | |- context [respond ?w ?req] =>
      let v := fresh "v" in
      let Hv := fresh "Hv" in
      let Hdoc := fresh "Hdoc" in
      let Hb := fresh "Hb" in
      let res := fresh "res" in
      let w1 := fresh "w" in
      first
        [ destruct (Hjson w req eq_refl) as (v & Hv & Hdoc);
          destruct (respond w req) as [res w1];
          simpl in Hv; pose proof (json_body_Some _ _ Hv) as Hb;
          simpl; unfold json_at, json; rewrite ?Hv, ?Hb; simpl
        | destruct (respond w req) as [res w1]; simpl ]
  | |- context [clock ?w] =>
      let t := fresh "t" in
      let w1 := fresh "w" in
      destruct (clock w) as [t w1]; simpl
  end.

(** X17. Against a server that answers GET and POST requests with JSON
    documents, an iteration adds two samples to the custom metrics: the
    duration of the list response to [user_list_duration], then 1 to
    [user_creation_success] when the create answered 201 with an id, and
    0 otherwise.  The options have a threshold for both metrics. *)
Theorem iteration_samples (d : data) (w : W) :
  answers_json respond →
  ∃ listRes getRes createRes others,
    received (log_of (run respond clock (default ENV_BASE_URL d) w))
      = listRes :: getRes :: createRes :: others ∧
    samples (log_of (run respond clock (default ENV_BASE_URL d) w))
      = [("user_list_duration", duration listRes);
         ("user_creation_success",
          if (status createRes =? 201)%Z && negb (is_undefined (returned_id createRes))
          then 1%Z else 0%Z)] ∧
    is_Some (LoadTestOptions.thresholds LoadTestOptions.options !! "user_list_duration") ∧
    is_Some (LoadTestOptions.thresholds LoadTestOptions.options !! "user_creation_success").
Proof.
  intros Hjson.
  unfold log_of, default, group, read_operations, write_operations, returned_id.
  simpl. do 5 run_json Hjson.
  remember (prop v1 "id") as x eqn:Hx.
  assert (is_undefined x = true → truthy x = false) as Hundef
    by (by destruct x).
  destruct (truthy (setupUserId d)); simpl;
    [do 2 run_json Hjson|];
    destruct (status res1 =? 201)%Z eqn:Hst; simpl;
    destruct (is_undefined x) eqn:Hu; simpl;
    destruct (truthy x) eqn:Htr; simpl;
    try (specialize (Hundef eq_refl); discriminate);
    try run_json Hjson;
    eexists _, _, res1, _; (split; [reflexivity|]);
    rewrite Hv1; simpl; rewrite <- Hx, Hst, Hu; simpl;
    (split; [reflexivity|]); split; by eexists.
Qed.

(** X18. Whatever the server answers, what an iteration issues is an
    initial part of the full sequence of requests and sleep.  The
    iteration runs to its end, and issues the full sequence, exactly when
    it can read its first three responses: the response to the list
    request carries a JSON document, and the responses to the get and to
    the create have a body.  Otherwise it throws at the first of them
    that it cannot read, before any further request and without
    sleeping. *)
Theorem iteration_gives_up_early (d : data) (w : W) :
  let r := run respond clock (default ENV_BASE_URL d) w in
  let createRes := nth 2 (received (log_of r)) (mkResponse 0 NoBody 0) in
  issued (log_of r) `prefix_of` iteration_actions ENV_BASE_URL d createRes ∧
  (((∀ n res, take 3 (received (log_of r)) !! n = Some res → readable n res) ∧
    fst (fst r) = Done tt ∧
    issued (log_of r) = iteration_actions ENV_BASE_URL d createRes) ∨
   (∃ n res,
      take 3 (received (log_of r)) !! n = Some res ∧ ¬ readable n res ∧
      fst (fst r) = Aborted JsonParseError ∧
      length (issued (log_of r)) = S n)).
Proof.
  intros r createRes.
  destruct (default_cases respond clock ENV_BASE_URL d w)
    as [(Ho & Hlog & Hread) | (n & res & Hn & Hres & Ho & Hiss)];
    fold r in Ho, Hlog, Hread || fold r in Hn, Ho, Hiss.
  - destruct Hlog as (listRes & getRes & res1 & others & Hrec & Hiss).
    assert (createRes = res1) as -> by (unfold createRes; by rewrite Hrec).
    split; [by rewrite Hiss|]. left. by repeat split.
  - assert (n < 3)%nat as Hlt.
    { apply lookup_lt_Some in Hn. rewrite length_take in Hn. lia. }
    split.
    + rewrite Hiss. unfold iteration_actions, first_actions.
      destruct n as [|[|[|n]]]; [| | |lia]; by eexists.
    + right. exists n, res. repeat split; try done.
      rewrite Hiss. unfold first_actions.
      destruct n as [|[|[|n]]]; [done|done|done|lia].
Qed.

End run.

Lemma iteration_samples_witness :
  ∃ listRes getRes createRes others,
    received (log_of (run sample_respond sample_clock (default None (mkData (VNum 4))) 5%Z))
      = listRes :: getRes :: createRes :: others ∧
    samples (log_of (run sample_respond sample_clock (default None (mkData (VNum 4))) 5%Z))
      = [("user_list_duration", duration listRes);
         ("user_creation_success",
          if (status createRes =? 201)%Z && negb (is_undefined (returned_id createRes))
          then 1%Z else 0%Z)] ∧
    is_Some (LoadTestOptions.thresholds LoadTestOptions.options !! "user_list_duration") ∧
    is_Some (LoadTestOptions.thresholds LoadTestOptions.options !! "user_creation_success").
Proof.
  apply (iteration_samples sample_respond sample_clock None (mkData (VNum 4)) 5%Z).
  apply sample_answers_json.
Defined.

End LoadTestMore.
